(** * jungle.ec2: instance listing, target selection and ssh command composition

    A shallow embedding of [src/jungle/ec2.py].

    Conventions of the embedding.
    - A Python [str] is a [string]; its characters are the code points
      below 256, compared by code point ([String.ltb]), which is the order
      Python's [<] on [str] uses.
    - A value that may be [None] is an [option]; [py_str] is [str(x)], which
      is also what [{n}] in [str.format] renders.
    - Exceptions, [sys.exit] included (it raises [SystemExit]), are the left
      summand of a sum; code that also prints, prompts or calls the provider
      runs in the monad [M], which threads the pending prompt responses and
      the chronological list of observable events.
    - The boto3 session is the record [session]: what the provider answers
      to a lookup by id and to a filtered query. *)

From Stdlib Require Import ZArith Ascii.
From stdpp Require Import base list strings pretty sorting.

Local Open Scope Z_scope.

(** ** Python values and strings *)

Inductive exn :=
| ClientError (msg : string)
| ValueError
| TypeError
| IndexError
| UnboundLocalError
| Abort
| SystemExit (code : Z).

(** [str(x)] for an optional string: [None] prints as the word None. *)
Definition py_str (x : option string) : string :=
  match x with
  | None => "None"
  | Some s => s
  end.

Definition TAB : string := String (ascii_of_nat 9) EmptyString.

(** [str.split(sep)] for a one-character separator. *)
Fixpoint split (sep : ascii) (s : string) : list string :=
  match s with
  | EmptyString => [EmptyString]
  | String c s' =>
      if Ascii.eqb c sep then EmptyString :: split sep s'
      else match split sep s' with
           | [] => [String c EmptyString]
           | p :: ps => String c p :: ps
           end
  end.

(** The characters [str.strip()] removes, among the code points below 256. *)
Definition is_space (c : ascii) : bool :=
  let n := nat_of_ascii c in
  ((9 <=? n) && (n <=? 13) || (28 <=? n) && (n <=? 32)
   || (n =? 133) || (n =? 160))%nat.

Fixpoint lstrip (s : string) : string :=
  match s with
  | EmptyString => EmptyString
  | String c s' => if is_space c then lstrip s' else s
  end.

Fixpoint rstrip (s : string) : string :=
  match s with
  | EmptyString => EmptyString
  | String c s' =>
      match rstrip s' with
      | EmptyString => if is_space c then EmptyString else String c EmptyString
      | r => String c r
      end
  end.

Definition strip (s : string) : string := lstrip (rstrip s).

Fixpoint spaces (n : nat) : string :=
  match n with
  | O => EmptyString
  | S n' => String " "%char (spaces n')
  end.

(** [s.ljust(w)], which is what the format spec [<w] does to a string. *)
Definition ljust (w : nat) (s : string) : string :=
  s +:+ spaces (w - String.length s).

(** ** [str.format]

    A format string is kept in parsed form: [Lit] is literal text, [Arg n None]
    is the field [{n}] and [Arg n (Some w)] is the field [{n:<w}]. *)

Inductive pyval :=
| PStr (s : string)
| PInt (n : Z)
| POpt (x : option string).

Inductive field :=
| Lit (s : string)
| Arg (n : nat) (width : option nat).

(** A non-empty format spec on [None] raises [TypeError]. *)
Definition format_value (width : option nat) (v : pyval) : exn + string :=
  match width, v with
  | None, PStr s => inr s
  | None, PInt n => inr (pretty n)
  | None, POpt x => inr (py_str x)
  | Some w, PStr s => inr (ljust w s)
  | Some w, PInt n => inr (ljust w (pretty n))
  | Some w, POpt (Some s) => inr (ljust w s)
  | Some w, POpt None => inl TypeError
  end.

Fixpoint format (fmt : list field) (args : list pyval) : exn + string :=
  match fmt with
  | [] => inr EmptyString
  | Lit s :: fmt' =>
      match format fmt' args with
      | inl e => inl e
      | inr rest => inr (s +:+ rest)
      end
  | Arg n w :: fmt' =>
      match args !! n with
      | None => inl IndexError
      | Some v =>
          match format_value w v with
          | inl e => inl e
          | inr s =>
              match format fmt' args with
              | inl e => inl e
              | inr rest => inr (s +:+ rest)
              end
          end
      end
  end.

(** ** Instances *)

Record tag := { Key : string; Value : string }.

Module Instance.
Record t := {
  id : string;
  tags : option (list tag);
  state_Name : string;
  private_ip_address : option string;
  public_ip_address : option string;
  key_name : option string
}.
End Instance.

(** ** Pure helpers of the module *)

Definition get_tag_value (x : option (list tag)) (key : string) : string :=
  match x with
  | None => EmptyString
  | Some x =>
      let result := map Value (filter (fun y => Key y = key) x) in
      match result with
      | [] => EmptyString
      | r :: _ => r
      end
  end.

Definition _get_max_name_len (instances : list Instance.t) : nat :=
  match instances with
  | [] => 0%nat
  | _ :: _ =>
      max_list (map (fun i => String.length (get_tag_value (Instance.tags i) "Name")) instances)
  end.

Fixpoint mapM {A B : Type} (f : A -> exn + B) (l : list A) : exn + list B :=
  match l with
  | [] => inr []
  | x :: l' =>
      match f x with
      | inl e => inl e
      | inr y =>
          match mapM f l' with
          | inl e => inl e
          | inr ys => inr (y :: ys)
          end
      end
  end.

Definition format_output (instances : list Instance.t) (flag : bool)
  : exn + list string :=
  let line_format :=
    [Arg 0 None; Lit TAB; Arg 1 None; Lit TAB; Arg 2 None; Lit TAB;
     Arg 3 None; Lit TAB; Arg 4 None] in
  let name_len := (_get_max_name_len instances + 3)%nat in
  let line_format :=
    if flag then
      [Arg 0 (Some name_len); Arg 1 (Some 16%nat); Arg 2 (Some 21%nat);
       Arg 3 (Some 16%nat); Arg 4 (Some 16%nat)]
    else line_format in
  mapM (fun i =>
          let tag_name := get_tag_value (Instance.tags i) "Name" in
          format line_format
            [PStr tag_name; PStr (Instance.state_Name i); PStr (Instance.id i);
             POpt (Instance.private_ip_address i);
             PStr (py_str (Instance.public_ip_address i))])
       instances.

(** A Python [dict] with string keys, in insertion order: assigning to a key
    that is present keeps its position. *)
Definition dict := list (string * string).

Fixpoint dict_set (k v : string) (d : dict) : dict :=
  match d with
  | [] => [(k, v)]
  | (k', v') :: d' =>
      if String.eqb k' k then (k, v) :: d' else (k', v') :: dict_set k v d'
  end.

(** [tag_key, tag_value = tag.strip().split(':')] needs exactly two parts. *)
Definition _parse_tags (tags : string) : exn + dict :=
  let tags_list := split ","%char tags in
  foldl (fun acc tag =>
           match acc with
           | inl e => inl e
           | inr tags_dict =>
               match split ":"%char (strip tag) with
               | [tag_key; tag_value] => inr (dict_set tag_key tag_value tags_dict)
               | _ => inl ValueError
               end
           end)
        (inr []) tags_list.

(** ** Python's [sorted] and list indexing *)

(** [sorted(l, key=key)] is a stable sort that compares keys with [<] only.
    [insert_by] puts [x], which precedes all of [ys] in the input, in front of
    the first element whose key is not smaller than its own. *)
Fixpoint insert_by {A : Type} (key : A -> string) (x : A) (ys : list A) : list A :=
  match ys with
  | [] => [x]
  | y :: ys' =>
      if String.ltb (key y) (key x) then y :: insert_by key x ys' else x :: ys
  end.

Definition sorted {A : Type} (key : A -> string) (l : list A) : list A :=
  foldr (insert_by key) [] l.

Definition enumerate {A : Type} (l : list A) : list (Z * A) :=
  imap (fun idx x => (Z.of_nat idx, x)) l.

(** [l[i]]: a negative index counts from the end, anything else out of range
    raises [IndexError]. *)
Definition py_getitem {A : Type} (l : list A) (i : Z) : exn + A :=
  let n := Z.of_nat (length l) in
  let j := if i <? 0 then n + i else i in
  if (j <? 0) || (n <=? j) then inl IndexError
  else match l !! Z.to_nat j with
       | Some x => inr x
       | None => inl IndexError
       end.

(** ** Effects *)

Record condition := { Name : string; Values : list string }.

Inductive event :=
| Echo (err : bool) (message : string)
| Prompt (text : string)
| Describe (instance_id : string)
| Query (filters : list condition)
| Shell (cmd : string).

(** What the provider answers through the boto3 session: [inl msg] is a
    [botocore.exceptions.ClientError] with that text. Within one run the
    provider answers the same query the same way. *)
Record session := {
  ec2_Instance : string -> string + Instance.t;
  ec2_instances_filter : list condition -> string + list Instance.t
}.

(** [responses] are the user's answers to the prompts still to come, [None]
    for a bare enter; [trace] is what has happened so far, oldest first. *)
Record state := { responses : list (option Z); trace : list event }.

Definition M (A : Type) : Type := state -> (exn + A) * state.

#[global] Instance M_ret : MRet M := fun A a s => (inr a, s).

#[global] Instance M_bind : MBind M := fun A B f m s =>
  match m s with
  | (inl e, s') => (inl e, s')
  | (inr a, s') => f a s'
  end.

Definition raise {A : Type} (e : exn) : M A := fun s => (inl e, s).

Definition lift {A : Type} (r : exn + A) : M A := fun s => (r, s).

Definition emit (e : event) : M unit :=
  fun s => (inr tt, {| responses := responses s; trace := trace s ++ [e] |}).

Definition click_echo (message : string) (err : bool) : M unit :=
  emit (Echo err message).

(** [click.prompt(text, type=int, default=d)]: a bare enter gives [d]; end of
    input aborts. *)
Definition click_prompt (text : string) (default : Z) : M Z :=
  fun s =>
    let s' tl := {| responses := tl; trace := trace s ++ [Prompt text] |} in
    match responses s with
    | [] => (inl Abort, s' [])
    | r :: rs => (inr (from_option (fun z => z) default r), s' rs)
    end.

Definition sys_exit {A : Type} (code : Z) : M A := raise (SystemExit code).

(** [try: body except botocore.exceptions.ClientError as e: handler] *)
Definition except_ClientError {A : Type} (body : M A) (handler : string -> M A) : M A :=
  fun s =>
    match body s with
    | (inl (ClientError msg), s') => handler msg s'
    | r => r
    end.

Fixpoint for_ {A : Type} (l : list A) (body : A -> M unit) : M unit :=
  match l with
  | [] => mret tt
  | x :: l' => body x ;; for_ l' body
  end.

(** [ec2.Instance(id)] followed by the first attribute access, which is when
    boto3 asks the provider. *)
Definition Instance_load (ec2 : session) (instance_id : string) : M Instance.t :=
  emit (Describe instance_id) ;;
  match ec2_Instance ec2 instance_id with
  | inl msg => raise (ClientError msg)
  | inr i => mret i
  end.

(** One iteration over the lazy collection [ec2.instances.filter(Filters=...)]:
    each iteration is a query of its own. *)
Definition iterate (ec2 : session) (conditions : list condition) : M (list Instance.t) :=
  emit (Query conditions) ;;
  match ec2_instances_filter ec2 conditions with
  | inl msg => raise (ClientError msg)
  | inr l => mret l
  end.

(** The process exit status: a normal return is 0, [sys.exit(n)] is [n], and
    any other exception that escapes ends the process with 1. *)
Definition exit_status {A : Type} (r : exn + A) : Z :=
  match r with
  | inr _ => 0
  | inl (SystemExit code) => code
  | inl _ => 1
  end.

(** ** Address resolution and command composition *)

Definition _get_instance_ip_address (instance : Instance.t) (use_private_ip : bool)
  : M (option string) :=
  if use_private_ip then mret (Instance.private_ip_address instance)
  else match Instance.public_ip_address instance with
       | Some a => mret (Some a)
       | None =>
           click_echo "Public IP address not set. Attempting to use the private IP address." false ;;
           mret (Instance.private_ip_address instance)
       end.

Definition build_option_username (username : option string) : string :=
  match username with
  | None => EmptyString
  | Some u => " -l " +:+ u
  end.

Definition invalid_instance_id (instance_id : option string) (e : string) : M string :=
  lift (format [Lit "Invalid instance ID "; Arg 0 None; Lit " ("; Arg 1 None; Lit ")"]
               [POpt instance_id; PStr e]).

Definition candidate_line (idx : Z) (i : Instance.t) : M string :=
  let tag_name := get_tag_value (Instance.tags i) "Name" in
  lift (format [Lit "["; Arg 0 None; Lit "]: "; Arg 1 None; Lit TAB; Arg 2 None; Lit TAB;
                Arg 3 None; Lit TAB; Arg 4 None; Lit TAB; Arg 5 None]
               [PInt idx; PStr (Instance.id i); POpt (Instance.public_ip_address i);
                PStr (Instance.state_Name i); PStr tag_name; POpt (Instance.key_name i)]).

(** Lines 129-133 of [create_ssh_command]: the filters of the query by tags. *)
Definition tag_conditions (instance_tags : dict) : list condition :=
  foldl (fun conditions '(key, value) =>
           conditions ++ [ {| Name := "tag:" +:+ key; Values := [value] |} ])
        [ {| Name := "instance-state-name"; Values := ["running"] |} ]
        instance_tags.

(** The sort key of line 136. *)
Definition name_tag (instance : Instance.t) : string :=
  get_tag_value (Instance.tags instance) "Name".

(** Lines 119-155 of [create_ssh_command]: the locals [instance] and
    [hostname] once the selection is done. They are bound together, or not at
    all when neither an id nor tags are given. *)
Definition create_ssh_command_target (ec2 : session)
    (instance_id : option string) (instance_tags : option dict) (use_private_ip : bool)
  : M (option (Instance.t * option string)) :=
  match instance_id, instance_tags with
  | Some iid, _ =>
      except_ClientError
        (instance ← Instance_load ec2 iid;
         hostname ← _get_instance_ip_address instance use_private_ip;
         mret (Some (instance, hostname)))
        (fun e =>
           msg ← invalid_instance_id instance_id e;
           click_echo msg true ;; sys_exit 2)
  | None, Some instance_tags =>
      except_ClientError
        (let conditions := tag_conditions instance_tags in
         instances ← iterate ec2 conditions;
         let target_instances :=
           foldl (fun target_instances '(idx, i) => target_instances ++ [i]) []
                 (enumerate (sorted name_tag instances)) in
         if (Z.of_nat (length target_instances) =? 1) then
           instance ← lift (py_getitem target_instances 0);
           hostname ← _get_instance_ip_address instance use_private_ip;
           mret (Some (instance, hostname))
         else
           instances ← iterate ec2 conditions;
           for_ (enumerate instances) (fun '(idx, i) =>
             line ← candidate_line idx i;
             click_echo line false) ;;
           selected_idx ← click_prompt "Please enter a valid number" 0;
           if (Z.of_nat (length target_instances) - 1 <? selected_idx) || (selected_idx <? 0) then
             click_echo ("selected number [" +:+ pretty selected_idx +:+ "] is invalid") true ;;
             sys_exit 2
           else
             click_echo (pretty selected_idx +:+ " is selected.") false ;;
             instance ← lift (py_getitem target_instances selected_idx);
             hostname ← _get_instance_ip_address instance use_private_ip;
             mret (Some (instance, hostname)))
        (fun e =>
           msg ← invalid_instance_id instance_id e;
           click_echo msg true ;; sys_exit 2)
  | None, None => mret None
  end.

(** Reading a local that was never bound raises [UnboundLocalError]. *)
Definition local {A : Type} (x : option A) : M A :=
  match x with
  | None => raise UnboundLocalError
  | Some a => mret a
  end.

(** Lines 157-178 of [create_ssh_command]. *)
Definition create_ssh_command_cmd (ec2 : session)
    (target : option (Instance.t * option string))
    (username key_file : option string) (port : Z) (ssh_options : option string)
    (gateway_instance_id gateway_username : option string) : M string :=
  let key_file_option :=
    match key_file with
    | None => EmptyString
    | Some k => " -i " +:+ k
    end in
  let gateway_username_option := build_option_username gateway_username in
  let username_option := build_option_username username in
  let ssh_options :=
    match ssh_options with
    | None => EmptyString
    | Some o => " " +:+ o
    end in
  match gateway_instance_id with
  | Some gid =>
      gateway_instance ← Instance_load ec2 gid;
      let gateway_public_ip := Instance.public_ip_address gateway_instance in
      instance ← local (fst <$> target);
      let hostname := Instance.private_ip_address instance in
      lift (format [Lit "ssh -tt"; Arg 0 None; Lit " "; Arg 1 None; Arg 2 None; Lit " -p ";
                    Arg 3 None; Arg 4 None; Lit " ssh"; Arg 5 None; Lit " "; Arg 6 None]
                   [PStr gateway_username_option; POpt gateway_public_ip; PStr key_file_option;
                    PInt port; PStr ssh_options; PStr username_option; POpt hostname])
  | None =>
      hostname ← local (snd <$> target);
      lift (format [Lit "ssh"; Arg 0 None; Lit " "; Arg 1 None; Arg 2 None; Lit " -p ";
                    Arg 3 None; Arg 4 None]
                   [PStr username_option; POpt hostname; PStr key_file_option; PInt port;
                    PStr ssh_options])
  end.

Definition create_ssh_command (ec2 : session)
    (instance_id : option string) (instance_tags : option dict)
    (username key_file : option string) (port : Z) (ssh_options : option string)
    (use_private_ip : bool) (gateway_instance_id gateway_username : option string) : M string :=
  target ← create_ssh_command_target ec2 instance_id instance_tags use_private_ip;
  create_ssh_command_cmd ec2 target username key_file port ssh_options
    gateway_instance_id gateway_username.

(** [subprocess.call(cmd, shell=True)]: runs [cmd] and returns its status. *)
Definition subprocess_call (shell : string -> Z) (cmd : string) : M Z :=
  emit (Shell cmd) ;; mret (shell cmd).

Definition count_None (l : list (option string)) : Z :=
  Z.of_nat (length (filter (fun x => x = None) l)).

(** Lines 217-222 of [ssh]. *)
Definition instance_tags_dict (instance_name instance_tags : option string)
  : exn + option dict :=
  match instance_name, instance_tags with
  | Some instance_name, _ => inr (Some [("Name", instance_name)])
  | None, Some instance_tags =>
      match _parse_tags instance_tags with
      | inl e => inl e
      | inr d => inr (Some d)
      end
  | None, None => inr None
  end.

(** The [ssh] command. [session] is what [create_session(profile_name)]
    returned and [shell] is the exit status the platform shell gives each
    command line. *)
Definition ssh (session : session) (shell : string -> Z)
    (instance_id instance_name instance_tags username key_file : option string)
    (port : Z) (ssh_options : option string) (private_ip : bool)
    (gateway_instance_id gateway_username : option string) (dry_run : bool) : M unit :=
  let filters := count_None [instance_id; instance_name; instance_tags] in
  (if filters =? 3 then
     click_echo ("One of --instance-id/-i or --instance-name/-n or --instance-tags/-t"
                 +:+ " has to be specified.") true ;;
     sys_exit 1
   else if filters <? 2 then
     click_echo ("Only one of --instance-id/-i or --instance-name/-n or --instance-tags/-t "
                 +:+ "can be specified at the same time.") true ;;
     sys_exit 1
   else mret tt) ;;
  instance_tags_dict ← lift (instance_tags_dict instance_name instance_tags);
  cmd ← create_ssh_command session instance_id instance_tags_dict username key_file port
          ssh_options private_ip gateway_instance_id gateway_username;
  if negb dry_run then
    subprocess_call shell cmd ;; mret tt
  else
    click_echo cmd false.

(** * Vocabulary of the statements *)

(** The state after the events [evs] have happened. *)
Definition log (s : state) (evs : list event) : state :=
  {| responses := responses s; trace := trace s ++ evs |}.

(** The text of one line of the candidate list. *)
Definition candidate_text (idx : Z) (i : Instance.t) : string :=
  "[" +:+ pretty idx +:+ "]: " +:+ Instance.id i +:+ TAB
  +:+ py_str (Instance.public_ip_address i) +:+ TAB
  +:+ Instance.state_Name i +:+ TAB
  +:+ name_tag i +:+ TAB
  +:+ py_str (Instance.key_name i).

Definition candidate_events (l : list (Z * Instance.t)) : list event :=
  map (fun '(idx, i) => Echo false (candidate_text idx i)) l.

(** The three places that bind [instance] also bind [hostname] from it. *)
Definition with_hostname (instance : Instance.t) (use_private_ip : bool)
  : M (option (Instance.t * option string)) :=
  hostname ← _get_instance_ip_address instance use_private_ip;
  mret (Some (instance, hostname)).

(** The order [sorted] sorts by: the keys do not decrease. *)
Definition key_le {A : Type} (key : A -> string) (x y : A) : Prop :=
  String.leb (key x) (key y) = true.

Definition invalid_text (instance_id : option string) (e : string) : string :=
  "Invalid instance ID " +:+ py_str instance_id +:+ " (" +:+ e +:+ ")".

Definition key_file_text (key_file : option string) : string :=
  from_option (fun k => " -i " +:+ k) "" key_file.

Definition ssh_options_text (ssh_options : option string) : string :=
  from_option (fun o => " " +:+ o) "" ssh_options.

(** [appends m]: running [m] leaves the events so far in place.
    [starts_with e m]: moreover the first thing [m] does is [e]. *)
Definition appends {A : Type} (m : M A) : Prop :=
  forall s, exists evs, trace (m s).2 = trace s ++ evs.

Definition starts_with {A : Type} (e : event) (m : M A) : Prop :=
  forall s, exists evs, trace (m s).2 = trace s ++ e :: evs.

Fixpoint count_char (c : ascii) (s : string) : nat :=
  match s with
  | EmptyString => 0
  | String a s' => (if Ascii.eqb a c then 1 else 0) + count_char c s'
  end.

(** The loop body of [_parse_tags] on the dictionary built so far. *)
Definition parse_entry (acc : exn + dict) (tag : string) : exn + dict :=
  match acc with
  | inl e => inl e
  | inr tags_dict =>
      match split ":"%char (strip tag) with
      | [tag_key; tag_value] => inr (dict_set tag_key tag_value tags_dict)
      | _ => inl ValueError
      end
  end.

(** The state when the prompt has been answered: the provider was queried
    twice, the candidates were listed and one response was consumed. *)
Definition prompted (s : state) (instance_tags : dict) (l : list Instance.t)
    (rs : list (option Z)) : state :=
  {| responses := rs;
     trace := trace s
              ++ [Query (tag_conditions instance_tags); Query (tag_conditions instance_tags)]
              ++ candidate_events (enumerate l)
              ++ [Prompt "Please enter a valid number"] |}.

(** ** A small account to run the commands on

    One instance without a public address, a gateway, and two running
    instances tagged role:web that the provider returns with the Name tags in
    the order b, a. *)

Definition ex_instance (id name private : string) (public : option string) : Instance.t :=
  {| Instance.id := id;
     Instance.tags := Some [ {| Key := "Name"; Value := name |} ];
     Instance.state_Name := "running";
     Instance.private_ip_address := Some private;
     Instance.public_ip_address := public;
     Instance.key_name := None |}.

Definition ex_target : Instance.t := ex_instance "i-1" "db" "10.0.0.5" None.
Definition ex_gateway : Instance.t := ex_instance "i-gw" "gw" "10.0.0.1" (Some "3.3.3.3").
Definition ex_b : Instance.t := ex_instance "i-b" "b" "10.0.0.7" (Some "2.2.2.2").
Definition ex_a : Instance.t := ex_instance "i-a" "a" "10.0.0.6" (Some "1.1.1.1").

Definition ex_session : session :=
  {| ec2_Instance := fun id =>
       if String.eqb id "i-1" then inr ex_target
       else if String.eqb id "i-gw" then inr ex_gateway
       else inl "InvalidInstanceID.NotFound";
     ec2_instances_filter := fun conditions =>
       match conditions with
       | [_; {| Name := n; Values := _ |}] =>
           if String.eqb n "tag:Name" then inr [ex_target]
           else if String.eqb n "tag:role" then inr [ex_b; ex_a]
           else inr []
       | _ => inr []
       end |}.

(** A shell in which every command fails with status 255. *)
Definition ex_shell (cmd : string) : Z := 255.

Definition ex_state (responses : list (option Z)) : state :=
  {| responses := responses; trace := [] |}.

(** * The [ls] command

    [ec2.instances.filter(...)] is lazy: every [for] over it, and every list
    comprehension, is an iteration of its own. [ls] hands the collection to
    [format_output], so the functions that the listing runs are given here on
    the collection as well. *)

Definition NL : string := String (ascii_of_nat 10) EmptyString.

(** Lines 77-81 of [ls]: no filter for the default name, else the Name tag. *)
Definition ls_conditions (name : string) : list condition :=
  if String.eqb name "*" then []
  else [ {| Name := "tag:Name"; Values := [name] |} ].

(** [_get_max_name_len] on the collection: the [for] starts one iteration
    and, at its first element, the list comprehension runs another one and
    the function returns; [max] of an empty list raises [ValueError]. *)
Definition _get_max_name_len_collection (ec2 : session) (conditions : list condition)
  : M nat :=
  instances ← iterate ec2 conditions;
  match instances with
  | [] => mret 0%nat
  | _ :: _ =>
      instances ← iterate ec2 conditions;
      match instances with
      | [] => raise ValueError
      | _ :: _ =>
          mret (max_list (map (fun i => String.length (get_tag_value (Instance.tags i) "Name"))
                              instances))
      end
  end.

(** [format_output] on the collection. *)
Definition format_output_collection (ec2 : session) (conditions : list condition)
    (flag : bool) : M (list string) :=
  let line_format :=
    [Arg 0 None; Lit TAB; Arg 1 None; Lit TAB; Arg 2 None; Lit TAB;
     Arg 3 None; Lit TAB; Arg 4 None] in
  max_name_len ← _get_max_name_len_collection ec2 conditions;
  let name_len := (max_name_len + 3)%nat in
  let line_format :=
    if flag then
      [Arg 0 (Some name_len); Arg 1 (Some 16%nat); Arg 2 (Some 21%nat);
       Arg 3 (Some 16%nat); Arg 4 (Some 16%nat)]
    else line_format in
  instances ← iterate ec2 conditions;
  lift (mapM (fun i =>
                let tag_name := get_tag_value (Instance.tags i) "Name" in
                format line_format
                  [PStr tag_name; PStr (Instance.state_Name i); PStr (Instance.id i);
                   POpt (Instance.private_ip_address i);
                   PStr (py_str (Instance.public_ip_address i))])
             instances).

(** The [ls] command; [session] is what [create_session(profile_name)]
    returned and [String.concat NL] is ['\n'.join]. *)
Definition ls (session : session) (name : string) (list_formatted : bool) : M unit :=
  let conditions := ls_conditions name in
  out ← format_output_collection session conditions list_formatted;
  click_echo (String.concat NL out) false.

(** * More vocabulary *)

(** [adds P m]: running [m] keeps the events so far and every event it adds
    satisfies [P]. *)
Definition adds {A : Type} (P : event -> Prop) (m : M A) : Prop :=
  forall s, exists evs, trace (m s).2 = trace s ++ evs /\ Forall P evs.

Definition not_Shell (e : event) : Prop := forall cmd, e <> Shell cmd.

Definition not_Prompt (e : event) : Prop := forall text, e <> Prompt text.

(** [d.get(k)] *)
Fixpoint dict_get (k : string) (d : dict) : option string :=
  match d with
  | [] => None
  | (k', v) :: d' => if String.eqb k' k then Some v else dict_get k d'
  end.

(** The key and the value of one entry of a tag string, when it has both. *)
Definition entry_pair (tag : string) : option (string * string) :=
  match split ":"%char (strip tag) with
  | [tag_key; tag_value] => Some (tag_key, tag_value)
  | _ => None
  end.

(** The width of the columns after the Name column in the aligned listing. *)
Definition fits (i : Instance.t) : Prop :=
  (String.length (Instance.state_Name i) <= 16
   /\ String.length (Instance.id i) <= 21
   /\ String.length (py_str (Instance.private_ip_address i)) <= 16
   /\ String.length (py_str (Instance.public_ip_address i)) <= 16)%nat.

(** ** A second account: one terminated instance, and a provider that
    rejects every other request. *)

Definition ex_terminated : Instance.t :=
  {| Instance.id := "i-old";
     Instance.tags := None;
     Instance.state_Name := "terminated";
     Instance.private_ip_address := None;
     Instance.public_ip_address := None;
     Instance.key_name := Some "dev" |}.

Definition ex_outage : session :=
  {| ec2_Instance := fun id =>
       if String.eqb id "i-old" then inr ex_terminated else inl "RequestExpired";
     ec2_instances_filter := fun conditions => inl "RequestExpired" |}.

(** One line of the aligned listing for a Name column of width [w]. *)
Definition aligned_line (w : nat) (i : Instance.t) : string :=
  ljust w (get_tag_value (Instance.tags i) "Name")
  +:+ ljust 16 (Instance.state_Name i)
  +:+ ljust 21 (Instance.id i)
  +:+ ljust 16 (py_str (Instance.private_ip_address i))
  +:+ ljust 16 (py_str (Instance.public_ip_address i)).

(** The queries that listing [l] costs: the collection is iterated twice when
    it is empty and three times otherwise. *)
Definition ls_queries (conditions : list condition) (l : list Instance.t) : list event :=
  match l with
  | [] => [Query conditions; Query conditions]
  | _ :: _ => [Query conditions; Query conditions; Query conditions]
  end.

(** One line of the tab-separated listing. *)
Definition plain_line (i : Instance.t) : string :=
  get_tag_value (Instance.tags i) "Name" +:+ TAB
  +:+ Instance.state_Name i +:+ TAB
  +:+ Instance.id i +:+ TAB
  +:+ py_str (Instance.private_ip_address i) +:+ TAB
  +:+ py_str (Instance.public_ip_address i).

(** No field of the line of [i] contains a tab. *)
Definition tab_free (i : Instance.t) : Prop :=
  let tab := ascii_of_nat 9 in
  count_char tab (get_tag_value (Instance.tags i) "Name") = 0%nat
  /\ count_char tab (Instance.state_Name i) = 0%nat
  /\ count_char tab (Instance.id i) = 0%nat
  /\ count_char tab (py_str (Instance.private_ip_address i)) = 0%nat
  /\ count_char tab (py_str (Instance.public_ip_address i)) = 0%nat.

(** A provider that returns the gateway and instance a for every query. *)
Definition ex_pair : session :=
  {| ec2_Instance := ec2_Instance ex_session;
     ec2_instances_filter := fun conditions => inr [ex_gateway; ex_a] |}.

(** A provider that returns the gateway alone for every query. *)
Definition ex_single : session :=
  {| ec2_Instance := ec2_Instance ex_session;
     ec2_instances_filter := fun conditions => inr [ex_gateway] |}.

(** * Properties *)

(** ** The order on strings *)

Lemma compare_not_Gt_trans (s1 s2 s3 : string) :
  String.compare s1 s2 <> Gt -> String.compare s2 s3 <> Gt -> String.compare s1 s3 <> Gt.
Proof.
  revert s2 s3.
  induction s1 as [|a s1 IH]; intros [|b s2] [|c s3]; simpl; try congruence.
  unfold Ascii.compare.
  destruct (N.compare_spec (N_of_ascii a) (N_of_ascii b)),
    (N.compare_spec (N_of_ascii b) (N_of_ascii c)),
    (N.compare_spec (N_of_ascii a) (N_of_ascii c));
    try congruence; try lia; eauto.
Qed.

Lemma leb_trans (s1 s2 s3 : string) :
  String.leb s1 s2 = true -> String.leb s2 s3 = true -> String.leb s1 s3 = true.
Proof.
  unfold String.leb. intros H12 H23.
  pose proof (compare_not_Gt_trans s1 s2 s3) as H.
  destruct (String.compare s1 s2), (String.compare s2 s3), (String.compare s1 s3);
    try done; exfalso; apply H; congruence.
Qed.

Lemma ltb_leb (s1 s2 : string) : String.ltb s1 s2 = true -> String.leb s1 s2 = true.
Proof. unfold String.ltb, String.leb. by destruct (String.compare s1 s2). Qed.

Lemma ltb_false_leb (s1 s2 : string) : String.ltb s1 s2 = false -> String.leb s2 s1 = true.
Proof.
  unfold String.ltb, String.leb. rewrite (String.compare_antisym s1 s2).
  by destruct (String.compare s2 s1).
Qed.

Lemma ltb_irrefl (s : string) : String.ltb s s = false.
Proof.
  unfold String.ltb. pose proof (String.compare_antisym s s) as H.
  by destruct (String.compare s s).
Qed.

(** ** [sorted] is a stable sort *)

Section Sorted.
Context {A : Type} (key : A -> string).

Lemma insert_by_Permutation (x : A) (ys : list A) : insert_by key x ys ≡ₚ x :: ys.
Proof.
  induction ys as [|y ys IH]; simpl; [done|].
  destruct (String.ltb (key y) (key x)); [|done].
  rewrite IH. apply Permutation_swap.
Qed.

Lemma sorted_Permutation (l : list A) : sorted key l ≡ₚ l.
Proof.
  induction l as [|x l IH]; simpl; [done|].
  fold (sorted key l). by rewrite insert_by_Permutation, IH.
Qed.

Lemma sorted_length (l : list A) : length (sorted key l) = length l.
Proof. apply Permutation_length, sorted_Permutation. Qed.

Lemma insert_by_StronglySorted (x : A) (ys : list A) :
  StronglySorted (key_le key) ys -> StronglySorted (key_le key) (insert_by key x ys).
Proof.
  induction ys as [|y ys IH]; simpl; intros Hs.
  - by repeat constructor.
  - apply StronglySorted_inv in Hs as [Hys Hy].
    destruct (String.ltb (key y) (key x)) eqn:Hlt.
    + constructor; [by apply IH|].
      rewrite insert_by_Permutation. constructor; [|done].
      by apply ltb_leb.
    + apply ltb_false_leb in Hlt.
      constructor; [by constructor|].
      constructor; [done|].
      eapply Forall_impl; [exact Hy|].
      intros z Hz. by eapply leb_trans.
Qed.

Lemma sorted_StronglySorted (l : list A) : StronglySorted (key_le key) (sorted key l).
Proof.
  induction l as [|x l IH]; simpl; [constructor|].
  by apply insert_by_StronglySorted.
Qed.

(** Stability: the elements that share a key keep the order of the input. *)
Lemma insert_by_stable (k : string) (x : A) (ys : list A) :
  filter (fun i => key i = k) (insert_by key x ys) = filter (fun i => key i = k) (x :: ys).
Proof.
  induction ys as [|y ys IH]; simpl; [done|].
  destruct (String.ltb (key y) (key x)) eqn:Hlt; [|done].
  rewrite filter_cons, IH, !filter_cons.
  destruct (decide (key y = k)) as [Hy|Hy], (decide (key x = k)) as [Hx|Hx]; try done.
  rewrite Hy, Hx, ltb_irrefl in Hlt. done.
Qed.

Lemma sorted_stable (k : string) (l : list A) :
  filter (fun i => key i = k) (sorted key l) = filter (fun i => key i = k) l.
Proof.
  induction l as [|x l IH]; simpl; [done|].
  fold (sorted key l). by rewrite insert_by_stable, !filter_cons, IH.
Qed.

Lemma collect_enumerate (l : list A) :
  foldl (fun (target_instances : list A) '(idx, i) => target_instances ++ [i]) []
        (enumerate l) = l.
Proof.
  unfold enumerate.
  enough (H : forall (g : nat -> Z) acc,
             foldl (fun (acc : list A) '(idx, i) => acc ++ [i]) acc
                   (imap (fun idx x => (g idx, x)) l) = acc ++ l) by apply (H Z.of_nat []).
  induction l as [|x l IH]; intros g acc; simpl.
  - by rewrite app_nil_r.
  - rewrite (IH (g ∘ S)). by rewrite <- app_assoc.
Qed.

End Sorted.

(** ** Running the monad *)

Lemma log_nil (s : state) : log s [] = s.
Proof. destruct s. unfold log. simpl. by rewrite app_nil_r. Qed.

Lemma log_log (s : state) (evs1 evs2 : list event) :
  log (log s evs1) evs2 = log s (evs1 ++ evs2).
Proof. unfold log. simpl. by rewrite <- (assoc_L (++)). Qed.

Lemma run_bind {A B : Type} (m : M A) (f : A -> M B) (s : state) :
  (m ≫= f) s = match m s with
               | (inl e, s') => (inl e, s')
               | (inr a, s') => f a s'
               end.
Proof. reflexivity. Qed.

Lemma run_bind_ok {A B : Type} (m : M A) (f : A -> M B) (s s' : state) (a : A) :
  m s = (inr a, s') -> (m ≫= f) s = f a s'.
Proof. intros H. by rewrite run_bind, H. Qed.

Lemma run_emit (e : event) (s : state) : emit e s = (inr tt, log s [e]).
Proof. reflexivity. Qed.

Lemma run_click_echo (message : string) (err : bool) (s : state) :
  click_echo message err s = (inr tt, log s [Echo err message]).
Proof. reflexivity. Qed.

Lemma app_empty_r (s : string) : s +:+ "" = s.
Proof. induction s as [|c s IH]; [done|]. exact (f_equal (String c) IH). Qed.

Lemma run_candidate_line (idx : Z) (i : Instance.t) (s : state) :
  candidate_line idx i s = (inr (candidate_text idx i), s).
Proof.
  unfold candidate_line, candidate_text, lift, name_tag. simpl.
  by rewrite app_empty_r.
Qed.

Lemma run_candidate_list (l : list (Z * Instance.t)) (s : state) :
  for_ l (fun '(idx, i) => line ← candidate_line idx i; click_echo line false) s
  = (inr tt, log s (candidate_events l)).
Proof.
  revert s. induction l as [|[idx i] l IH]; intros s; simpl.
  - by rewrite log_nil.
  - rewrite run_bind, run_bind, run_candidate_line, run_click_echo, IH, log_log. done.
Qed.

Lemma run_get_instance_ip_address (instance : Instance.t) (use_private_ip : bool) (s : state) :
  exists hostname evs,
    _get_instance_ip_address instance use_private_ip s = (inr hostname, log s evs)
    /\ Forall (fun e => exists message, e = Echo false message) evs.
Proof.
  unfold _get_instance_ip_address.
  destruct use_private_ip; [|destruct (Instance.public_ip_address instance) as [a|]].
  - exists (Instance.private_ip_address instance), []. by rewrite log_nil.
  - exists (Some a), []. by rewrite log_nil.
  - eexists _, [_]. rewrite run_bind, run_click_echo. split; [done|].
    repeat constructor. by eexists.
Qed.

Lemma run_with_hostname (instance : Instance.t) (use_private_ip : bool) (s : state) :
  exists hostname evs,
    with_hostname instance use_private_ip s = (inr (Some (instance, hostname)), log s evs)
    /\ Forall (fun e => exists message, e = Echo false message) evs.
Proof.
  destruct (run_get_instance_ip_address instance use_private_ip s) as (h & evs & Hrun & Hevs).
  exists h, evs. unfold with_hostname. by rewrite (run_bind_ok _ _ _ _ _ Hrun).
Qed.

(** ** What [create_ssh_command_target] does on each path *)

Lemma run_invalid_instance_id (instance_id : option string) (e : string) (s : state) :
  invalid_instance_id instance_id e s = (inr (invalid_text instance_id e), s).
Proof. reflexivity. Qed.

Lemma run_Instance_load (ec2 : session) (iid : string) (s : state) :
  Instance_load ec2 iid s
  = match ec2_Instance ec2 iid with
    | inl msg => (inl (ClientError msg), log s [Describe iid])
    | inr i => (inr i, log s [Describe iid])
    end.
Proof.
  unfold Instance_load. rewrite run_bind, run_emit.
  by destruct (ec2_Instance ec2 iid).
Qed.

Lemma run_iterate (ec2 : session) (conditions : list condition) (s : state) :
  iterate ec2 conditions s
  = match ec2_instances_filter ec2 conditions with
    | inl msg => (inl (ClientError msg), log s [Query conditions])
    | inr l => (inr l, log s [Query conditions])
    end.
Proof.
  unfold iterate. rewrite run_bind, run_emit.
  by destruct (ec2_instances_filter ec2 conditions).
Qed.

Lemma except_with_hostname (instance : Instance.t) (use_private_ip : bool)
    (handler : string -> M (option (Instance.t * option string))) (s : state) :
  except_ClientError (with_hostname instance use_private_ip) handler s
  = with_hostname instance use_private_ip s.
Proof.
  unfold except_ClientError.
  destruct (run_with_hostname instance use_private_ip s) as (h & evs & -> & _). done.
Qed.

Section Target.
Context (ec2 : session) (use_private_ip : bool) (s : state).

Lemma target_by_id_found (iid : string) (instance_tags : option dict) (i : Instance.t) :
  ec2_Instance ec2 iid = inr i ->
  create_ssh_command_target ec2 (Some iid) instance_tags use_private_ip s
  = with_hostname i use_private_ip (log s [Describe iid]).
Proof.
  intros Hi. unfold create_ssh_command_target.
  rewrite <- (except_with_hostname i use_private_ip
    (fun e => msg ← invalid_instance_id (Some iid) e; click_echo msg true ;; sys_exit 2)).
  unfold except_ClientError. rewrite !run_bind, run_Instance_load, Hi. done.
Qed.

Lemma target_by_id_invalid (iid : string) (instance_tags : option dict) (msg : string) :
  ec2_Instance ec2 iid = inl msg ->
  create_ssh_command_target ec2 (Some iid) instance_tags use_private_ip s
  = (inl (SystemExit 2), log s [Describe iid; Echo true (invalid_text (Some iid) msg)]).
Proof.
  intros Hi. unfold create_ssh_command_target, except_ClientError.
  rewrite !run_bind, run_Instance_load, Hi.
  rewrite !run_bind, run_invalid_instance_id, run_bind, run_click_echo, log_log. done.
Qed.

Lemma target_by_tags_error (instance_tags : dict) (msg : string) :
  ec2_instances_filter ec2 (tag_conditions instance_tags) = inl msg ->
  create_ssh_command_target ec2 None (Some instance_tags) use_private_ip s
  = (inl (SystemExit 2),
     log s [Query (tag_conditions instance_tags); Echo true (invalid_text None msg)]).
Proof.
  intros Hq. unfold create_ssh_command_target, except_ClientError.
  rewrite !run_bind, run_iterate, Hq.
  rewrite !run_bind, run_invalid_instance_id, run_bind, run_click_echo, log_log. done.
Qed.

Lemma target_by_tags_one (instance_tags : dict) (i : Instance.t) :
  ec2_instances_filter ec2 (tag_conditions instance_tags) = inr [i] ->
  create_ssh_command_target ec2 None (Some instance_tags) use_private_ip s
  = with_hostname i use_private_ip (log s [Query (tag_conditions instance_tags)]).
Proof.
  intros Hq. unfold create_ssh_command_target.
  rewrite <- (except_with_hostname i use_private_ip
    (fun e => msg ← invalid_instance_id None e; click_echo msg true ;; sys_exit 2)).
  unfold except_ClientError. rewrite !run_bind, run_iterate, Hq. done.
Qed.

End Target.

Lemma py_getitem_in_range {A : Type} (l : list A) (i : Z) :
  0 <= i < Z.of_nat (length l) ->
  exists x, l !! Z.to_nat i = Some x /\ py_getitem l i = inr x.
Proof.
  intros Hi. unfold py_getitem.
  destruct (lookup_lt_is_Some_2 l (Z.to_nat i)) as [x Hx]; [lia|].
  exists x. split; [done|].
  replace (i <? 0) with false by lia.
  replace ((i <? 0) || (Z.of_nat (length l) <=? i)) with false by lia.
  by rewrite Hx.
Qed.

Lemma run_click_prompt (text : string) (default : Z) (s : state) (r : option Z)
    (rs : list (option Z)) :
  responses s = r :: rs ->
  click_prompt text default s
  = (inr (from_option (fun z => z) default r),
     {| responses := rs; trace := trace s ++ [Prompt text] |}).
Proof. intros H. unfold click_prompt. by rewrite H. Qed.

Section TargetPrompt.
Context (ec2 : session) (use_private_ip : bool) (s : state).
Context (instance_tags : dict) (l : list Instance.t) (r : option Z) (rs : list (option Z)).
Context (Hquery : ec2_instances_filter ec2 (tag_conditions instance_tags) = inr l).
Context (Hmany : length l <> 1%nat).
Context (Hresponse : responses s = r :: rs).

Let selected_idx : Z := from_option (fun z => z) 0 r.

Lemma target_by_tags_prompt :
  create_ssh_command_target ec2 None (Some instance_tags) use_private_ip s
  = if (Z.of_nat (length l) - 1 <? selected_idx) || (selected_idx <? 0) then
      (inl (SystemExit 2),
       log (prompted s instance_tags l rs) [Echo true ("selected number [" +:+ pretty selected_idx +:+ "] is invalid")])
    else
      match sorted name_tag l !! Z.to_nat selected_idx with
      | Some i =>
          with_hostname i use_private_ip
            (log (prompted s instance_tags l rs) [Echo false (pretty selected_idx +:+ " is selected.")])
      | None =>
          (inl IndexError,
           log (prompted s instance_tags l rs) [Echo false (pretty selected_idx +:+ " is selected.")])
      end.
Proof.
  unfold create_ssh_command_target, except_ClientError.
  rewrite !run_bind, run_iterate, Hquery.
  rewrite collect_enumerate, sorted_length.
  replace (Z.of_nat (length l) =? 1) with false by lia.
  rewrite !run_bind, run_iterate, Hquery.
  rewrite run_bind, run_candidate_list, run_bind.
  rewrite (run_click_prompt _ _ _ r rs) by done.
  fold selected_idx.
  assert (Hs : {| responses := rs;
                  trace := trace (log (log (log s [Query (tag_conditions instance_tags)])
                                     [Query (tag_conditions instance_tags)])
                                     (candidate_events (enumerate l)))
                           ++ [Prompt "Please enter a valid number"] |} = (prompted s instance_tags l rs)).
  { unfold prompted, log. simpl. f_equal. by rewrite <- !(assoc_L (++)). }
  rewrite Hs. clear Hs.
  destruct ((Z.of_nat (length l) - 1 <? selected_idx) || (selected_idx <? 0)) eqn:Hrange.
  - by rewrite run_bind, run_click_echo.
  - rewrite run_bind, run_click_echo, run_bind.
    destruct (py_getitem_in_range (sorted name_tag l) selected_idx) as (i & Hi & Hget).
    { rewrite sorted_length. lia. }
    rewrite Hi. unfold lift at 1. rewrite Hget.
    fold (with_hostname i use_private_ip).
    destruct (run_with_hostname i use_private_ip
                (log (prompted s instance_tags l rs) [Echo false (pretty selected_idx +:+ " is selected.")]))
      as (h & evs & -> & _).
    done.
Qed.
End TargetPrompt.

(** ** What [create_ssh_command_cmd] composes *)

Lemma cmd_direct (ec2 : session) (instance : Instance.t) (hostname : option string)
    (username key_file : option string) (port : Z) (ssh_options gateway_username : option string)
    (s : state) :
  create_ssh_command_cmd ec2 (Some (instance, hostname)) username key_file port ssh_options
    None gateway_username s
  = (inr ("ssh" +:+ build_option_username username +:+ " " +:+ py_str hostname
          +:+ key_file_text key_file +:+ " -p " +:+ pretty port
          +:+ ssh_options_text ssh_options), s).
Proof.
  unfold create_ssh_command_cmd. simpl. rewrite run_bind. simpl.
  unfold lift. simpl. rewrite app_empty_r.
  by destruct key_file, ssh_options.
Qed.

Lemma cmd_gateway (ec2 : session) (instance : Instance.t) (hostname : option string)
    (username key_file : option string) (port : Z) (ssh_options : option string)
    (gid : string) (gateway_username : option string) (gateway_instance : Instance.t)
    (s : state) :
  ec2_Instance ec2 gid = inr gateway_instance ->
  create_ssh_command_cmd ec2 (Some (instance, hostname)) username key_file port ssh_options
    (Some gid) gateway_username s
  = (inr ("ssh -tt" +:+ build_option_username gateway_username +:+ " "
          +:+ py_str (Instance.public_ip_address gateway_instance)
          +:+ key_file_text key_file +:+ " -p " +:+ pretty port
          +:+ ssh_options_text ssh_options
          +:+ " ssh" +:+ build_option_username username +:+ " "
          +:+ py_str (Instance.private_ip_address instance)),
     log s [Describe gid]).
Proof.
  intros Hg. unfold create_ssh_command_cmd.
  rewrite run_bind, run_Instance_load, Hg. simpl. rewrite run_bind. simpl.
  unfold lift. simpl. rewrite app_empty_r.
  by destruct key_file, ssh_options.
Qed.

Lemma target_by_tags_abort (ec2 : session) (use_private_ip : bool) (s : state)
    (instance_tags : dict) (l : list Instance.t) :
  ec2_instances_filter ec2 (tag_conditions instance_tags) = inr l ->
  length l <> 1%nat ->
  responses s = [] ->
  create_ssh_command_target ec2 None (Some instance_tags) use_private_ip s
  = (inl Abort, prompted s instance_tags l []).
Proof.
  intros Hquery Hmany Hresponse.
  unfold create_ssh_command_target, except_ClientError.
  rewrite !run_bind, run_iterate, Hquery.
  rewrite collect_enumerate, sorted_length.
  replace (Z.of_nat (length l) =? 1) with false by lia.
  rewrite !run_bind, run_iterate, Hquery.
  rewrite run_bind, run_candidate_list, run_bind.
  unfold click_prompt. simpl. rewrite Hresponse.
  unfold prompted. by rewrite <- !(assoc_L (++)).
Qed.

(** Which instance is selected, or how the selection fails, does not depend
    on [use_private_ip]: the flag only reaches [_get_instance_ip_address]. *)
Lemma target_shape (ec2 : session) (instance_id : option string)
    (instance_tags : option dict) (s : state) :
  (exists e s', forall use_private_ip,
      create_ssh_command_target ec2 instance_id instance_tags use_private_ip s = (inl e, s'))
  \/ (exists i s', forall use_private_ip,
        create_ssh_command_target ec2 instance_id instance_tags use_private_ip s
        = with_hostname i use_private_ip s')
  \/ (forall use_private_ip,
        create_ssh_command_target ec2 instance_id instance_tags use_private_ip s = (inr None, s)).
Proof.
  destruct instance_id as [iid|]; [|destruct instance_tags as [tags|]].
  - destruct (ec2_Instance ec2 iid) as [msg|i] eqn:Hi.
    + left. eexists _, _. intros b. by apply target_by_id_invalid.
    + right; left. eexists _, _. intros b. by apply target_by_id_found.
  - destruct (ec2_instances_filter ec2 (tag_conditions tags)) as [msg|l] eqn:Hq.
    { left. eexists _, _. intros b. by apply target_by_tags_error. }
    destruct (decide (length l = 1%nat)) as [Hone|Hmany].
    { destruct l as [|i [|? ?]]; try done.
      right; left. eexists _, _. intros b. by apply target_by_tags_one. }
    destruct (responses s) as [|r rs] eqn:Hr.
    { left. eexists _, _. intros b. by apply target_by_tags_abort. }
    pose proof (fun b => target_by_tags_prompt ec2 b s tags l r rs Hq Hmany Hr) as H.
    destruct ((Z.of_nat (length l) - 1 <? from_option (fun z => z) 0 r)
              || (from_option (fun z => z) 0 r <? 0)).
    { left. eexists _, _. intros b. apply H. }
    destruct (sorted name_tag l !! Z.to_nat (from_option (fun z => z) 0 r)) as [i|].
    + right; left. eexists _, _. intros b. apply H.
    + left. eexists _, _. intros b. apply H.
  - right; right. done.
Qed.

Lemma target_flag_independent (ec2 : session) (instance_id : option string)
    (instance_tags : option dict) (s s1 : state) (use_private_ip : bool)
    (instance : Instance.t) (hostname : option string) :
  create_ssh_command_target ec2 instance_id instance_tags use_private_ip s
  = (inr (Some (instance, hostname)), s1) ->
  forall flag, exists hostname' s1',
    create_ssh_command_target ec2 instance_id instance_tags flag s
    = (inr (Some (instance, hostname')), s1').
Proof.
  intros Hrun flag.
  destruct (target_shape ec2 instance_id instance_tags s)
    as [(e & s' & H)|[(i & s' & H)|H]]; rewrite H in Hrun; try done.
  destruct (run_with_hostname i use_private_ip s') as (h & evs & Hh & _).
  rewrite Hh in Hrun. injection Hrun as <- <- <-.
  destruct (run_with_hostname i flag s') as (h' & evs' & Hh' & _).
  exists h', (log s' evs'). by rewrite H.
Qed.

(** C1. With a gateway instance id, the command is the double hop: ssh -tt to
    the gateway's public address with the gateway-username flag, the key file,
    the port and the extra options, and from there ssh with the username flag
    to the private address of the selected instance, whatever the
    use-private-address flag is. *)
Theorem create_ssh_command_gateway (ec2 : session)
    (instance_id : option string) (instance_tags : option dict)
    (username key_file : option string) (port : Z) (ssh_options : option string)
    (use_private_ip : bool) (gid : string) (gateway_username : option string)
    (s s1 : state) (instance : Instance.t) (hostname : option string)
    (gateway_instance : Instance.t) :
  create_ssh_command_target ec2 instance_id instance_tags use_private_ip s
  = (inr (Some (instance, hostname)), s1) ->
  ec2_Instance ec2 gid = inr gateway_instance ->
  forall flag, exists s2,
    create_ssh_command ec2 instance_id instance_tags username key_file port ssh_options
      flag (Some gid) gateway_username s
    = (inr ("ssh -tt" +:+ build_option_username gateway_username +:+ " "
            +:+ py_str (Instance.public_ip_address gateway_instance)
            +:+ key_file_text key_file +:+ " -p " +:+ pretty port
            +:+ ssh_options_text ssh_options
            +:+ " ssh" +:+ build_option_username username +:+ " "
            +:+ py_str (Instance.private_ip_address instance)),
       s2).
Proof.
  intros Htarget Hgateway flag.
  destruct (target_flag_independent _ _ _ _ _ _ _ _ Htarget flag) as (h' & s1' & Hflag).
  exists (log s1' [Describe gid]).
  unfold create_ssh_command.
  rewrite (run_bind_ok _ _ _ _ _ Hflag).
  by apply cmd_gateway.
Qed.

(** C3. With the use-private-address flag the private address is returned;
    without it the public address is returned when there is one, and otherwise
    the private address, after a warning on standard output and without an
    error. *)
Theorem get_instance_ip_address_spec (instance : Instance.t) (s : state) :
  _get_instance_ip_address instance true s
  = (inr (Instance.private_ip_address instance), s)
  /\ (forall a, Instance.public_ip_address instance = Some a ->
        _get_instance_ip_address instance false s = (inr (Some a), s))
  /\ (Instance.public_ip_address instance = None ->
        _get_instance_ip_address instance false s
        = (inr (Instance.private_ip_address instance),
           log s [Echo false
                    "Public IP address not set. Attempting to use the private IP address."])).
Proof.
  unfold _get_instance_ip_address. repeat split.
  - intros a ->. done.
  - intros ->. by rewrite run_bind, run_click_echo.
Qed.

(** C4. Without a gateway the command is the direct one: ssh, the optional
    -l username, the resolved address, the optional -i key file, -p port and
    the extra options last, and no second hop. *)
Theorem create_ssh_command_direct (ec2 : session)
    (instance_id : option string) (instance_tags : option dict)
    (username key_file : option string) (port : Z) (ssh_options : option string)
    (use_private_ip : bool) (gateway_username : option string)
    (s s1 : state) (instance : Instance.t) (hostname : option string) :
  create_ssh_command_target ec2 instance_id instance_tags use_private_ip s
  = (inr (Some (instance, hostname)), s1) ->
  create_ssh_command ec2 instance_id instance_tags username key_file port ssh_options
    use_private_ip None gateway_username s
  = (inr ("ssh" +:+ build_option_username username +:+ " " +:+ py_str hostname
          +:+ key_file_text key_file +:+ " -p " +:+ pretty port
          +:+ ssh_options_text ssh_options), s1)
  /\ build_option_username None = ""
  /\ (forall u, build_option_username (Some u) = " -l " +:+ u)
  /\ create_ssh_command_cmd ec2 (Some (instance, Some "10.0.0.5")) (Some "bob") None 22 None
       None gateway_username s1
     = (inr "ssh -l bob 10.0.0.5 -p 22", s1).
Proof.
  intros Htarget. repeat split.
  unfold create_ssh_command.
  rewrite (run_bind_ok _ _ _ _ _ Htarget).
  apply cmd_direct.
Qed.

(** ** Events are only ever added *)

Create HintDb appends.

Lemma appends_ret {A : Type} (a : A) : appends (mret a).
Proof. intros s. exists []. simpl. by rewrite app_nil_r. Qed.

Lemma appends_raise {A : Type} (e : exn) : appends (@raise A e).
Proof. intros s. exists []. simpl. by rewrite app_nil_r. Qed.

Lemma appends_sys_exit {A : Type} (code : Z) : appends (@sys_exit A code).
Proof. apply appends_raise. Qed.

Lemma appends_lift {A : Type} (r : exn + A) : appends (lift r).
Proof. intros s. exists []. simpl. by rewrite app_nil_r. Qed.

Lemma appends_local {A : Type} (x : option A) : appends (local x).
Proof. destruct x; [apply appends_ret|apply appends_raise]. Qed.

Lemma appends_emit (e : event) : appends (emit e).
Proof. intros s. by exists [e]. Qed.

Lemma appends_click_echo (message : string) (err : bool) : appends (click_echo message err).
Proof. apply appends_emit. Qed.

Lemma appends_click_prompt (text : string) (default : Z) : appends (click_prompt text default).
Proof. intros s. exists [Prompt text]. unfold click_prompt. by destruct (responses s). Qed.

Lemma appends_bind {A B : Type} (m : M A) (f : A -> M B) :
  appends m -> (forall a, appends (f a)) -> appends (m ≫= f).
Proof.
  intros Hm Hf s. rewrite run_bind.
  destruct (Hm s) as [evs Hevs]. destruct (m s) as [[e|a] s']; simpl in *.
  - by exists evs.
  - destruct (Hf a s') as [evs' Hevs']. exists (evs ++ evs').
    by rewrite Hevs', Hevs, (assoc_L (++)).
Qed.

Lemma appends_except {A : Type} (body : M A) (handler : string -> M A) :
  appends body -> (forall msg, appends (handler msg)) -> appends (except_ClientError body handler).
Proof.
  intros Hbody Hhandler s. unfold except_ClientError.
  destruct (Hbody s) as [evs Hevs]. destruct (body s) as [[e|a] s']; simpl in *.
  - destruct e; try by exists evs.
    destruct (Hhandler msg s') as [evs' Hevs']. exists (evs ++ evs').
    by rewrite Hevs', Hevs, (assoc_L (++)).
  - by exists evs.
Qed.

Lemma appends_for {A : Type} (l : list A) (body : A -> M unit) :
  (forall x, appends (body x)) -> appends (for_ l body).
Proof.
  intros Hbody. induction l as [|x l IH]; simpl.
  - apply appends_ret.
  - apply appends_bind; [apply Hbody|by intros _].
Qed.

Lemma starts_with_emit {A : Type} (e : event) (f : unit -> M A) :
  (forall a, appends (f a)) -> starts_with e (emit e ≫= f).
Proof.
  intros Hf s. rewrite run_bind, run_emit.
  destruct (Hf tt (log s [e])) as [evs Hevs]. exists evs.
  rewrite Hevs. simpl. by rewrite <- (assoc_L (++)).
Qed.

Lemma starts_with_bind {A B : Type} (e : event) (m : M A) (f : A -> M B) :
  starts_with e m -> (forall a, appends (f a)) -> starts_with e (m ≫= f).
Proof.
  intros Hm Hf s. rewrite run_bind.
  destruct (Hm s) as [evs Hevs]. destruct (m s) as [[x|a] s']; simpl in *.
  - by exists evs.
  - destruct (Hf a s') as [evs' Hevs']. exists (evs ++ evs').
    by rewrite Hevs', Hevs, <- (assoc_L (++)).
Qed.

Lemma starts_with_except {A : Type} (e : event) (body : M A) (handler : string -> M A) :
  starts_with e body -> (forall msg, appends (handler msg)) ->
  starts_with e (except_ClientError body handler).
Proof.
  intros Hbody Hhandler s. unfold except_ClientError.
  destruct (Hbody s) as [evs Hevs]. destruct (body s) as [[x|a] s']; simpl in *.
  - destruct x; try by exists evs.
    destruct (Hhandler msg s') as [evs' Hevs']. exists (evs ++ evs').
    by rewrite Hevs', Hevs, <- (assoc_L (++)).
  - by exists evs.
Qed.

#[global] Hint Resolve appends_ret appends_raise appends_sys_exit appends_lift appends_local
  appends_emit appends_click_echo appends_click_prompt : appends.
#[global] Hint Extern 2 (appends (_ ≫= _)) => apply appends_bind; [|intros ?] : appends.
#[global] Hint Extern 2 (appends (except_ClientError _ _)) =>
  apply appends_except; [|intros ?] : appends.
#[global] Hint Extern 2 (appends (for_ _ _)) => apply appends_for; intros [? ?] : appends.
#[global] Hint Extern 3 (appends (if ?b then _ else _)) => destruct b : appends.
#[global] Hint Extern 3 (appends (match ?x with inl _ => _ | inr _ => _ end)) =>
  destruct x : appends.
#[global] Hint Extern 3 (appends (match ?x with Some _ => _ | None => _ end)) =>
  destruct x : appends.

Lemma appends_Instance_load (ec2 : session) (iid : string) : appends (Instance_load ec2 iid).
Proof. unfold Instance_load. auto with appends. Qed.

Lemma appends_iterate (ec2 : session) (c : list condition) : appends (iterate ec2 c).
Proof. unfold iterate. auto with appends. Qed.

Lemma appends_get_instance_ip_address (i : Instance.t) (b : bool) :
  appends (_get_instance_ip_address i b).
Proof. unfold _get_instance_ip_address. auto with appends. Qed.

#[global] Hint Resolve appends_Instance_load appends_iterate
  appends_get_instance_ip_address : appends.

Lemma appends_create_ssh_command_cmd (ec2 : session)
    (target : option (Instance.t * option string))
    (username key_file : option string) (port : Z) (ssh_options : option string)
    (gateway_instance_id gateway_username : option string) :
  appends (create_ssh_command_cmd ec2 target username key_file port ssh_options
             gateway_instance_id gateway_username).
Proof. unfold create_ssh_command_cmd. auto 10 with appends. Qed.

Lemma starts_with_target_by_id (ec2 : session) (iid : string)
    (instance_tags : option dict) (use_private_ip : bool) :
  starts_with (Describe iid)
    (create_ssh_command_target ec2 (Some iid) instance_tags use_private_ip).
Proof.
  unfold create_ssh_command_target, invalid_instance_id.
  apply starts_with_except; [|auto 10 with appends].
  apply starts_with_bind; [|auto 10 with appends].
  unfold Instance_load. apply starts_with_emit. auto with appends.
Qed.

Lemma starts_with_target_by_tags (ec2 : session) (instance_tags : dict) (use_private_ip : bool) :
  starts_with (Query (tag_conditions instance_tags))
    (create_ssh_command_target ec2 None (Some instance_tags) use_private_ip).
Proof.
  unfold create_ssh_command_target, invalid_instance_id, candidate_line.
  apply starts_with_except; [|auto 10 with appends].
  apply starts_with_bind; [|intros l].
  - unfold iterate. apply starts_with_emit. auto with appends.
  - auto 20 with appends.
Qed.

(** The sort key is the value of the first tag whose key is Name, and the
    empty string for an instance without such a tag. *)
Lemma name_tag_first (i : Instance.t) (pre : list tag) (v : string) (post : list tag) :
  Instance.tags i = Some (pre ++ {| Key := "Name"; Value := v |} :: post) ->
  Forall (fun y => Key y <> "Name") pre ->
  name_tag i = v.
Proof.
  intros Htags Hpre. unfold name_tag, get_tag_value. rewrite Htags.
  rewrite filter_app, filter_cons.
  replace (filter (fun y => Key y = "Name") pre) with (@nil tag).
  - reflexivity.
  - clear Htags. induction Hpre as [|y pre Hy _ IH]; [done|].
    rewrite filter_cons. by destruct (decide (Key y = "Name")).
Qed.

Lemma StronglySorted_lookup_lt {A : Type} (R : A -> A -> Prop) (l : list A)
    (m n : nat) (a b : A) :
  StronglySorted R l -> l !! m = Some a -> l !! n = Some b -> (m < n)%nat -> R a b.
Proof.
  intros Hl. revert m n. induction Hl as [|x l Hl IH Hx]; intros m n Ha Hb Hmn; [done|].
  destruct n as [|n]; [lia|]. simpl in Hb.
  destruct m as [|m]; simpl in Ha.
  - injection Ha as <-. rewrite Forall_forall in Hx.
    apply Hx. by eapply list_elem_of_lookup_2.
  - apply (IH m n); [done|done|lia].
Qed.

Lemma name_tag_absent (i : Instance.t) :
  (Instance.tags i = None
   \/ exists x, Instance.tags i = Some x /\ Forall (fun y => Key y <> "Name") x) ->
  name_tag i = "".
Proof.
  unfold name_tag, get_tag_value. intros [->|(x & -> & Hx)]; [done|].
  replace (filter (fun y => Key y = "Name") x) with (@nil tag); [done|].
  induction Hx as [|y x Hy _ IH]; [done|].
  rewrite filter_cons. by destruct (decide (Key y = "Name")).
Qed.

(** C2. By name or tags: a single match is the target and nothing is asked;
    with several matches the answer to the one prompt (0 for a bare enter)
    indexes the matches sorted by Name tag, equal names in provider order, and
    an answer outside the range ends in [sys.exit(2)] after that one prompt.
    The key of the sort is the value of the instance's first tag with the key
    Name, the empty string when it has none, compared as strings. *)
Theorem resolve_by_tags (ec2 : session) (use_private_ip : bool) (s : state)
    (instance_tags : dict) (l : list Instance.t) :
  ec2_instances_filter ec2 (tag_conditions instance_tags) = inr l ->
  (forall i, l = [i] ->
     exists hostname evs,
       create_ssh_command_target ec2 None (Some instance_tags) use_private_ip s
       = (inr (Some (i, hostname)), log s evs)
       /\ Forall (fun e => forall text, e <> Prompt text) evs)
  /\ ((1 < length l)%nat ->
      (StronglySorted (key_le name_tag) (sorted name_tag l)
       /\ sorted name_tag l ≡ₚ l
       /\ (forall k, filter (fun i => name_tag i = k) (sorted name_tag l)
                     = filter (fun i => name_tag i = k) l)
       /\ (forall i pre v post,
             Instance.tags i = Some (pre ++ {| Key := "Name"; Value := v |} :: post) ->
             Forall (fun y => Key y <> "Name") pre ->
             name_tag i = v)
       /\ (forall i,
             (Instance.tags i = None
              \/ exists x, Instance.tags i = Some x
                           /\ Forall (fun y => Key y <> "Name") x) ->
             name_tag i = "")
       /\ (forall a b va vb pa qa pb qb m n,
             sorted name_tag l !! m = Some a ->
             sorted name_tag l !! n = Some b ->
             (m < n)%nat ->
             Instance.tags a = Some (pa ++ {| Key := "Name"; Value := va |} :: qa) ->
             Forall (fun y => Key y <> "Name") pa ->
             Instance.tags b = Some (pb ++ {| Key := "Name"; Value := vb |} :: qb) ->
             Forall (fun y => Key y <> "Name") pb ->
             String.leb va vb = true))
      /\ forall r rs, responses s = r :: rs ->
           let selected_idx := from_option (fun z => z) 0 r in
           (r = None -> selected_idx = 0)
           /\ (0 <= selected_idx < Z.of_nat (length l) ->
               exists i hostname evs,
                 sorted name_tag l !! Z.to_nat selected_idx = Some i
                 /\ create_ssh_command_target ec2 None (Some instance_tags) use_private_ip s
                    = (inr (Some (i, hostname)),
                       log (prompted s instance_tags l rs)
                         (Echo false (pretty selected_idx +:+ " is selected.") :: evs))
                 /\ Forall (fun e => forall text, e <> Prompt text) evs)
           /\ (~ 0 <= selected_idx < Z.of_nat (length l) ->
               create_ssh_command_target ec2 None (Some instance_tags) use_private_ip s
               = (inl (SystemExit 2),
                  log (prompted s instance_tags l rs)
                    [Echo true ("selected number [" +:+ pretty selected_idx +:+ "] is invalid")]))).
Proof.
  intros Hquery. split.
  - intros i ->. rewrite (target_by_tags_one _ _ _ _ _ Hquery).
    destruct (run_with_hostname i use_private_ip (log s [Query (tag_conditions instance_tags)]))
      as (h & evs & -> & Hevs).
    exists h, (Query (tag_conditions instance_tags) :: evs). rewrite log_log. split; [done|].
    constructor; [done|].
    eapply Forall_impl; [exact Hevs|]. by intros e [message ->] text.
  - intros Hmany. split.
    { split; [apply sorted_StronglySorted|].
      split; [apply sorted_Permutation|].
      split; [intros k; apply sorted_stable|].
      split; [apply name_tag_first|].
      split; [apply name_tag_absent|].
      intros a b va vb pa qa pb qb m n Ha Hb Hmn Hta Hpa Htb Hpb.
      rewrite <- (name_tag_first a pa va qa Hta Hpa), <- (name_tag_first b pb vb qb Htb Hpb).
      apply (StronglySorted_lookup_lt (key_le name_tag) (sorted name_tag l) m n a b);
        [apply sorted_StronglySorted|done..]. }
    intros r rs Hr selected_idx. split; [by intros ->|].
    assert (Hlen : length l <> 1%nat) by lia.
    pose proof (target_by_tags_prompt ec2 use_private_ip s instance_tags l r rs
                  Hquery Hlen Hr) as Hrun.
    fold selected_idx in Hrun. split.
    + intros Hrange.
      replace ((Z.of_nat (length l) - 1 <? selected_idx) || (selected_idx <? 0))
        with false in Hrun by lia.
      destruct (py_getitem_in_range (sorted name_tag l) selected_idx) as (i & Hi & _).
      { rewrite sorted_length. lia. }
      rewrite Hi in Hrun.
      destruct (run_with_hostname i use_private_ip
                  (log (prompted s instance_tags l rs)
                     [Echo false (pretty selected_idx +:+ " is selected.")]))
        as (h & evs & Hh & Hevs).
      exists i, h, evs. split; [done|]. split.
      * rewrite Hrun, Hh. by rewrite log_log.
      * eapply Forall_impl; [exact Hevs|]. by intros e [message ->] text.
    + intros Hrange.
      replace ((Z.of_nat (length l) - 1 <? selected_idx) || (selected_idx <? 0))
        with true in Hrun by lia.
      done.
Qed.

(** ** Running [ssh] *)

Lemma run_ret {A : Type} (a : A) (s : state) : (mret a : M A) s = (inr a, s).
Proof. reflexivity. Qed.

Lemma ssh_rejected (session : session) (shell : string -> Z)
    (instance_id instance_name instance_tags username key_file : option string)
    (port : Z) (ssh_options : option string) (private_ip : bool)
    (gateway_instance_id gateway_username : option string) (dry_run : bool) (s : state) :
  count_None [instance_id; instance_name; instance_tags] <> 2 ->
  exists message,
    ssh session shell instance_id instance_name instance_tags username key_file port
      ssh_options private_ip gateway_instance_id gateway_username dry_run s
    = (inl (SystemExit 1), log s [Echo true message]).
Proof.
  intros Hcount. unfold ssh.
  destruct instance_id, instance_name, instance_tags; try done; by eexists.
Qed.

Lemma ssh_run (session : session) (shell : string -> Z)
    (instance_id instance_name instance_tags username key_file : option string)
    (port : Z) (ssh_options : option string) (private_ip : bool)
    (gateway_instance_id gateway_username : option string) (dry_run : bool) (s : state) :
  count_None [instance_id; instance_name; instance_tags] = 2 ->
  ssh session shell instance_id instance_name instance_tags username key_file port
    ssh_options private_ip gateway_instance_id gateway_username dry_run s
  = match instance_tags_dict instance_name instance_tags with
    | inl e => (inl e, s)
    | inr d =>
        match create_ssh_command session instance_id d username key_file port ssh_options
                private_ip gateway_instance_id gateway_username s with
        | (inl e, s1) => (inl e, s1)
        | (inr cmd, s1) =>
            if dry_run then (inr tt, log s1 [Echo false cmd])
            else (inr tt, log s1 [Shell cmd])
        end
    end.
Proof.
  intros Hcount. unfold ssh. rewrite Hcount.
  change (2 =? 3) with false. change (2 <? 2) with false.
  rewrite run_bind, run_ret, run_bind. unfold lift at 1.
  destruct (instance_tags_dict instance_name instance_tags) as [e|d]; [done|].
  rewrite run_bind.
  destruct (create_ssh_command _ _ _ _ _ _ _ _ _ _ s) as [[e|cmd] s1]; [done|].
  by destruct dry_run.
Qed.

(** C10. By name or tags with no match at all: whatever the answer to the
    prompt is, no target is selected and no command is composed; the function
    ends in [sys.exit(2)] and so does the [ssh] command, with status 2. *)
Theorem no_match_exits_2 (ec2 : session) (shell : string -> Z) (instance_tags : dict)
    (username key_file : option string) (port : Z) (ssh_options : option string)
    (use_private_ip : bool) (gateway_instance_id gateway_username : option string)
    (s : state) (r : option Z) (rs : list (option Z)) :
  ec2_instances_filter ec2 (tag_conditions instance_tags) = inr [] ->
  responses s = r :: rs ->
  let failed :=
    {| responses := rs;
        trace := trace s
                 ++ [Query (tag_conditions instance_tags);
                     Query (tag_conditions instance_tags);
                     Prompt "Please enter a valid number";
                     Echo true ("selected number [" +:+ pretty (from_option (fun z => z) 0 r)
                                +:+ "] is invalid")] |} in
  create_ssh_command ec2 None (Some instance_tags) username key_file port ssh_options
    use_private_ip gateway_instance_id gateway_username s = (inl (SystemExit 2), failed)
  /\ forall instance_name tags dry_run,
       count_None [None; instance_name; tags] = 2 ->
       instance_tags_dict instance_name tags = inr (Some instance_tags) ->
       ssh ec2 shell None instance_name tags username key_file port ssh_options
         use_private_ip gateway_instance_id gateway_username dry_run s
       = (inl (SystemExit 2), failed)
       /\ exit_status (ssh ec2 shell None instance_name tags username key_file port ssh_options
                         use_private_ip gateway_instance_id gateway_username dry_run s).1 = 2.
Proof.
  intros Hquery Hr failed.
  assert (Hcmd : create_ssh_command ec2 None (Some instance_tags) username key_file port
                   ssh_options use_private_ip gateway_instance_id gateway_username s
                 = (inl (SystemExit 2), failed)).
  { unfold create_ssh_command. rewrite run_bind.
    rewrite (target_by_tags_prompt ec2 use_private_ip s instance_tags [] r rs Hquery) by done.
    assert (Hout : forall z : Z, (Z.of_nat (length (@nil Instance.t)) - 1 <? z) || (z <? 0) = true)
      by (intros z; destruct (Z.ltb_spec (Z.of_nat (length (@nil Instance.t)) - 1) z),
                      (Z.ltb_spec z 0); simpl in *; try done; lia).
    rewrite Hout.
    unfold failed, log, prompted. simpl. by rewrite <- !(assoc_L (++)). }
  split; [done|].
  intros instance_name tags dry_run Hcount Hdict.
  assert (Hssh : ssh ec2 shell None instance_name tags username key_file port ssh_options
                   use_private_ip gateway_instance_id gateway_username dry_run s
                 = (inl (SystemExit 2), failed)).
  { rewrite ssh_run by done. by rewrite Hdict, Hcmd. }
  by rewrite Hssh.
Qed.

Lemma starts_with_create_ssh_command (e : event) (ec2 : session)
    (instance_id : option string) (instance_tags : option dict)
    (username key_file : option string) (port : Z) (ssh_options : option string)
    (use_private_ip : bool) (gateway_instance_id gateway_username : option string) :
  starts_with e (create_ssh_command_target ec2 instance_id instance_tags use_private_ip) ->
  starts_with e (create_ssh_command ec2 instance_id instance_tags username key_file port
                   ssh_options use_private_ip gateway_instance_id gateway_username).
Proof.
  intros H. unfold create_ssh_command.
  apply starts_with_bind; [done|]. intros target. apply appends_create_ssh_command_cmd.
Qed.

Lemma ssh_first_event (e : event) (session : session) (shell : string -> Z)
    (instance_id instance_name instance_tags username key_file : option string)
    (port : Z) (ssh_options : option string) (private_ip : bool)
    (gateway_instance_id gateway_username : option string) (dry_run : bool) (s : state)
    (d : option dict) :
  count_None [instance_id; instance_name; instance_tags] = 2 ->
  instance_tags_dict instance_name instance_tags = inr d ->
  starts_with e (create_ssh_command_target session instance_id d private_ip) ->
  exists evs,
    trace (ssh session shell instance_id instance_name instance_tags username key_file port
             ssh_options private_ip gateway_instance_id gateway_username dry_run s).2
    = trace s ++ e :: evs.
Proof.
  intros Hcount Hdict Hstart. rewrite ssh_run, Hdict by done.
  destruct (starts_with_create_ssh_command e session instance_id d username key_file port
              ssh_options private_ip gateway_instance_id gateway_username Hstart s)
    as [evs Hevs].
  destruct (create_ssh_command _ _ _ _ _ _ _ _ _ _ s) as [[x|cmd] s1]; simpl in Hevs.
  - by exists evs.
  - destruct dry_run; simpl; rewrite Hevs, <- (assoc_L (++)); by eexists.
Qed.

(** C6 (as the code has it). Once the command is composed, [ssh] with
    --dry-run prints it on standard output and runs nothing; without it the
    command goes to the shell; either way [ssh] returns normally, so the
    process ends with status 0 whatever status the shell reports. *)
Theorem ssh_dry_run_or_shell (session : session) (shell : string -> Z)
    (instance_id instance_name instance_tags username key_file : option string)
    (port : Z) (ssh_options : option string) (private_ip : bool)
    (gateway_instance_id gateway_username : option string) (s s1 : state)
    (d : option dict) (cmd : string) :
  count_None [instance_id; instance_name; instance_tags] = 2 ->
  instance_tags_dict instance_name instance_tags = inr d ->
  create_ssh_command session instance_id d username key_file port ssh_options private_ip
    gateway_instance_id gateway_username s = (inr cmd, s1) ->
  let run := ssh session shell instance_id instance_name instance_tags username key_file port
               ssh_options private_ip gateway_instance_id gateway_username in
  run true s = (inr tt, log s1 [Echo false cmd])
  /\ run false s = (inr tt, log s1 [Shell cmd])
  /\ exit_status (run true s).1 = 0
  /\ exit_status (run false s).1 = 0.
Proof.
  intros Hcount Hdict Hcmd run. unfold run.
  rewrite !ssh_run, Hdict, Hcmd by done. done.
Qed.

(** C7. With none, two or three of --instance-id, --instance-name and
    --instance-tags, [ssh] writes one message to standard error and ends in
    [sys.exit(1)], and the provider is not asked anything. With exactly one of
    them (and tags that parse), the next thing that happens is the provider
    lookup or query for it. *)
Theorem ssh_selection_flags (session : session) (shell : string -> Z)
    (username key_file : option string) (port : Z) (ssh_options : option string)
    (private_ip : bool) (gateway_instance_id gateway_username : option string)
    (dry_run : bool) (s : state) :
  let run instance_id instance_name instance_tags :=
    ssh session shell instance_id instance_name instance_tags username key_file port
      ssh_options private_ip gateway_instance_id gateway_username dry_run s in
  (forall instance_id instance_name instance_tags,
     count_None [instance_id; instance_name; instance_tags] <> 2 ->
     exists message,
       run instance_id instance_name instance_tags
       = (inl (SystemExit 1), log s [Echo true message])
       /\ exit_status (run instance_id instance_name instance_tags).1 = 1)
  /\ (forall iid, exists evs,
        trace (run (Some iid) None None).2 = trace s ++ Describe iid :: evs)
  /\ (forall name, exists evs,
        trace (run None (Some name) None).2
        = trace s ++ Query (tag_conditions [("Name", name)]) :: evs)
  /\ (forall tags d, _parse_tags tags = inr d -> exists evs,
        trace (run None None (Some tags)).2 = trace s ++ Query (tag_conditions d) :: evs).
Proof.
  intros run. unfold run. repeat split.
  - intros instance_id instance_name instance_tags Hcount.
    destruct (ssh_rejected session shell instance_id instance_name instance_tags username
                key_file port ssh_options private_ip gateway_instance_id gateway_username
                dry_run s Hcount) as [message Hrun].
    exists message. by rewrite Hrun.
  - intros iid. eapply ssh_first_event; [done|done|]. apply starts_with_target_by_id.
  - intros name. eapply ssh_first_event; [done|done|]. apply starts_with_target_by_tags.
  - intros tags d Hparse. eapply ssh_first_event; [done| |].
    + simpl. by rewrite Hparse.
    + apply starts_with_target_by_tags.
Qed.

(** ** Tag strings *)

Lemma split_length (sep : ascii) (s : string) :
  length (split sep s) = S (count_char sep s).
Proof.
  induction s as [|a s IH]; simpl; [done|].
  destruct (Ascii.eqb a sep); simpl; [by rewrite IH|].
  destruct (split sep s); simpl in *; [done|]. done.
Qed.

Lemma parse_tags_fold (tags : string) :
  _parse_tags tags = foldl parse_entry (inr []) (split ","%char tags).
Proof. reflexivity. Qed.

Lemma parse_entry_raised (e : exn) (entries : list string) :
  foldl parse_entry (inl e) entries = inl e.
Proof. induction entries as [|x xs IH]; simpl; done. Qed.

Lemma parse_entry_step (d : dict) (tag : string) :
  (count_char ":"%char (strip tag) = 1%nat /\ exists d', parse_entry (inr d) tag = inr d')
  \/ (count_char ":"%char (strip tag) <> 1%nat /\ parse_entry (inr d) tag = inl ValueError).
Proof.
  pose proof (split_length ":"%char (strip tag)) as Hlen. unfold parse_entry.
  destruct (split ":"%char (strip tag)) as [|k [|v [|? ?]]]; simpl in Hlen;
    first [ right; split; [lia|done] | left; split; [lia|by eexists] ].
Qed.

Lemma parse_entries (d : dict) (entries : list string) :
  (foldl parse_entry (inr d) entries = inl ValueError
   /\ Exists (fun tag => count_char ":"%char (strip tag) <> 1%nat) entries)
  \/ ((exists d', foldl parse_entry (inr d) entries = inr d')
      /\ Forall (fun tag => count_char ":"%char (strip tag) = 1%nat) entries).
Proof.
  revert d. induction entries as [|x xs IH]; intros d.
  - right. split; [by eexists|constructor].
  - change (foldl parse_entry (inr d) (x :: xs))
      with (foldl parse_entry (parse_entry (inr d) x) xs).
    destruct (parse_entry_step d x) as [(Hc & d' & ->)|(Hc & ->)].
    + destruct (IH d') as [(Hrun & Hbad)|(Hrun & Hgood)].
      * left. split; [done|]. by apply Exists_cons_tl.
      * right. split; [done|]. by constructor.
    + left. rewrite parse_entry_raised. split; [done|]. by apply Exists_cons_hd.
Qed.


(** ** Listing *)

Lemma mapM_inr {A B : Type} (f : A -> exn + B) (g : A -> B) (l : list A) :
  Forall (fun x => f x = inr (g x)) l -> mapM f l = inr (map g l).
Proof.
  induction 1 as [|x l Hx _ IH]; simpl; [done|]. by rewrite Hx, IH.
Qed.

(** C9 (as the code has it). Every line of the listing holds the Name tag,
    the state, the id, the private address and the public address of its
    instance: separated by tabs by default, and padded to columns with
    --list-formatted, provided every instance has a private address. A missing
    tag is the empty string. An absent public address is the word None. *)
Theorem format_output_lines (instances : list Instance.t) :
  format_output instances false
  = inr (map (fun i =>
                get_tag_value (Instance.tags i) "Name" +:+ TAB
                +:+ Instance.state_Name i +:+ TAB
                +:+ Instance.id i +:+ TAB
                +:+ py_str (Instance.private_ip_address i) +:+ TAB
                +:+ py_str (Instance.public_ip_address i)) instances)
  /\ (Forall (fun i => is_Some (Instance.private_ip_address i)) instances ->
      format_output instances true
      = inr (map (fun i =>
                    ljust (_get_max_name_len instances + 3)
                      (get_tag_value (Instance.tags i) "Name")
                    +:+ ljust 16 (Instance.state_Name i)
                    +:+ ljust 21 (Instance.id i)
                    +:+ ljust 16 (py_str (Instance.private_ip_address i))
                    +:+ ljust 16 (py_str (Instance.public_ip_address i))) instances))
  /\ (forall key, get_tag_value None key = "")
  /\ (forall x key, Forall (fun y => Key y <> key) x -> get_tag_value (Some x) key = "")
  /\ py_str None = "None".
Proof.
  repeat split.
  - unfold format_output. apply mapM_inr, Forall_forall. intros i _.
    simpl. by rewrite app_empty_r.
  - intros Hprivate. unfold format_output. apply mapM_inr.
    eapply Forall_impl; [exact Hprivate|]. intros i [a Ha].
    simpl. rewrite Ha. simpl. by rewrite app_empty_r.
  - intros x key Hx. unfold get_tag_value.
    replace (filter (fun y => Key y = key) x) with (@nil tag); [done|].
    induction Hx as [|y x Hy _ IH]; [done|].
    rewrite filter_cons. by destruct (decide (Key y = key)).
Qed.

(** ** The commands on the small account *)

(** C5. The candidate list is printed from the provider's collection, not
    from the sorted list that the answer indexes: with the provider order b, a
    the lines read [0] i-b and [1] i-a, each with id, public address, state,
    Name tag and key pair, while the answer 0 selects i-a. *)
Theorem candidate_list_in_provider_order :
  create_ssh_command_target ex_session None (Some [("role", "web")]) false (ex_state [Some 0])
  = (inr (Some (ex_a, Some "1.1.1.1")),
     {| responses := [];
        trace := [Query (tag_conditions [("role", "web")]);
                  Query (tag_conditions [("role", "web")]);
                  Echo false (candidate_text 0 ex_b);
                  Echo false (candidate_text 1 ex_a);
                  Prompt "Please enter a valid number";
                  Echo false "0 is selected."] |})
  /\ sorted name_tag [ex_b; ex_a] = [ex_a; ex_b]
  /\ candidate_text 0 ex_b
     = "[0]: i-b" +:+ TAB +:+ "2.2.2.2" +:+ TAB +:+ "running" +:+ TAB +:+ "b" +:+ TAB +:+ "None".
Proof. repeat split. Qed.

Lemma create_ssh_command_gateway_witness :
  exists s2,
    create_ssh_command ex_session (Some "i-1") None None None 22 None false
      (Some "i-gw") (Some "admin") (ex_state [])
    = (inr "ssh -tt -l admin 3.3.3.3 -p 22 ssh 10.0.0.5", s2).
Proof.
  apply (create_ssh_command_gateway ex_session (Some "i-1") None None None 22 None true
           "i-gw" (Some "admin") (ex_state [])
           {| responses := []; trace := [Describe "i-1"] |}
           ex_target (Some "10.0.0.5") ex_gateway);
    reflexivity.
Defined.

Lemma resolve_by_tags_witness :
  sorted name_tag [ex_b; ex_a] = [ex_a; ex_b]
  /\ name_tag ex_a = "a" /\ name_tag ex_b = "b"
  /\ exists hostname s',
       create_ssh_command_target ex_session None (Some [("role", "web")]) false
         (ex_state [Some 1])
       = (inr (Some (ex_b, hostname)), s').
Proof.
  destruct (resolve_by_tags ex_session false (ex_state [Some 1]) [("role", "web")]
              [ex_b; ex_a] eq_refl) as [_ Hmany].
  destruct Hmany as [(_ & _ & _ & Hname & _) Hprompt]; [simpl; lia|].
  split; [reflexivity|].
  split; [apply (Hname ex_a [] "a" []); [reflexivity|constructor]|].
  split; [apply (Hname ex_b [] "b" []); [reflexivity|constructor]|].
  destruct (Hprompt (Some 1) [] eq_refl) as (_ & Hin & _).
  destruct Hin as (i & hostname & evs & Hi & Hrun & _); [simpl; lia|].
  assert (Hb : ex_b = i) by (injection Hi as Hi; exact Hi).
  exists hostname. eexists. rewrite Hb. exact Hrun.
Defined.

Lemma get_instance_ip_address_spec_witness :
  _get_instance_ip_address ex_gateway false (ex_state []) = (inr (Some "3.3.3.3"), ex_state [])
  /\ _get_instance_ip_address ex_target false (ex_state [])
     = (inr (Some "10.0.0.5"),
        log (ex_state [])
          [Echo false "Public IP address not set. Attempting to use the private IP address."]).
Proof.
  split.
  - apply (get_instance_ip_address_spec ex_gateway (ex_state [])). reflexivity.
  - apply (get_instance_ip_address_spec ex_target (ex_state [])). reflexivity.
Defined.

Lemma create_ssh_command_direct_witness :
  create_ssh_command ex_session (Some "i-gw") None (Some "bob") None 22 None false None None
    (ex_state [])
  = (inr "ssh -l bob 3.3.3.3 -p 22", {| responses := []; trace := [Describe "i-gw"] |}).
Proof.
  apply (create_ssh_command_direct ex_session (Some "i-gw") None (Some "bob") None 22 None
           false None (ex_state []) {| responses := []; trace := [Describe "i-gw"] |}
           ex_gateway (Some "3.3.3.3")).
  reflexivity.
Defined.

Lemma no_match_exits_2_witness :
  exit_status (ssh ex_session ex_shell None None (Some "env:prod") None None 22 None false
                 None None false (ex_state [None])).1 = 2.
Proof.
  apply (no_match_exits_2 ex_session ex_shell [("env", "prod")] None None 22 None false
           None None (ex_state [None]) None []); reflexivity.
Defined.

Lemma ssh_dry_run_or_shell_witness :
  ssh ex_session ex_shell (Some "i-1") None None None None 22 None true None None true
    (ex_state [])
  = (inr tt, {| responses := [];
                trace := [Describe "i-1"; Echo false "ssh 10.0.0.5 -p 22"] |}).
Proof.
  apply (ssh_dry_run_or_shell ex_session ex_shell (Some "i-1") None None None None 22 None
           true None None (ex_state []) {| responses := []; trace := [Describe "i-1"] |}
           None "ssh 10.0.0.5 -p 22"); reflexivity.
Defined.

(** Against C6 as stated: the shell reports 255 for the composed command and
    the process still ends with status 0. *)
Lemma ssh_exit_status_not_inherited :
  let run := ssh ex_session ex_shell (Some "i-1") None None None None 22 None true None None
               false (ex_state []) in
  run = (inr tt, {| responses := []; trace := [Describe "i-1"; Shell "ssh 10.0.0.5 -p 22"] |})
  /\ ex_shell "ssh 10.0.0.5 -p 22" = 255
  /\ exit_status run.1 = 0
  /\ exit_status run.1 <> ex_shell "ssh 10.0.0.5 -p 22".
Proof. repeat split. discriminate. Qed.

Lemma ssh_selection_flags_witness :
  exists message,
    ssh ex_session ex_shell (Some "i-1") (Some "db") None None None 22 None false None None
      false (ex_state [])
    = (inl (SystemExit 1), log (ex_state []) [Echo true message])
    /\ exit_status (ssh ex_session ex_shell (Some "i-1") (Some "db") None None None 22 None
                      false None None false (ex_state [])).1 = 1.
Proof.
  apply (ssh_selection_flags ex_session ex_shell None None 22 None false None None false
           (ex_state [])).
  discriminate.
Defined.

Lemma format_output_lines_witness :
  format_output [ex_gateway; ex_a] true
  = inr ["gw   running         i-gw                 10.0.0.1        3.3.3.3         ";
         "a    running         i-a                  10.0.0.6        1.1.1.1         "].
Proof.
  apply (format_output_lines [ex_gateway; ex_a]).
  repeat constructor; by eexists.
Defined.

(** Against C9 as stated: the line of an instance without a public address
    ends in the word None, not in an empty field. *)
Lemma absent_public_address_is_None :
  Instance.public_ip_address ex_target = None
  /\ format_output [ex_target] false
     = inr ["db" +:+ TAB +:+ "running" +:+ TAB +:+ "i-1" +:+ TAB +:+ "10.0.0.5" +:+ TAB +:+ "None"]
  /\ format_output [ex_target] false
     <> inr ["db" +:+ TAB +:+ "running" +:+ TAB +:+ "i-1" +:+ TAB +:+ "10.0.0.5" +:+ TAB +:+ ""].
Proof. repeat split. discriminate. Qed.


(** * Further properties *)

(** ** Which events a command can add *)

Lemma adds_impl {A : Type} (P Q : event -> Prop) (m : M A) :
  (forall e, P e -> Q e) -> adds P m -> adds Q m.
Proof.
  intros HPQ Hm s. destruct (Hm s) as (evs & Hevs & HP).
  exists evs. split; [done|]. by eapply Forall_impl.
Qed.

Lemma adds_ret {A : Type} (P : event -> Prop) (a : A) : adds P (mret a).
Proof. intros s. exists []. simpl. by rewrite app_nil_r. Qed.

Lemma adds_raise {A : Type} (P : event -> Prop) (e : exn) : adds P (@raise A e).
Proof. intros s. exists []. simpl. by rewrite app_nil_r. Qed.

Lemma adds_sys_exit {A : Type} (P : event -> Prop) (code : Z) : adds P (@sys_exit A code).
Proof. apply adds_raise. Qed.

Lemma adds_lift {A : Type} (P : event -> Prop) (r : exn + A) : adds P (lift r).
Proof. intros s. exists []. simpl. by rewrite app_nil_r. Qed.

Lemma adds_local {A : Type} (P : event -> Prop) (x : option A) : adds P (local x).
Proof. destruct x; [apply adds_ret|apply adds_raise]. Qed.

Lemma adds_emit (P : event -> Prop) (e : event) : P e -> adds P (emit e).
Proof. intros He s. exists [e]. split; [done|]. by constructor. Qed.

Lemma adds_click_echo (P : event -> Prop) (message : string) (err : bool) :
  P (Echo err message) -> adds P (click_echo message err).
Proof. apply adds_emit. Qed.

Lemma adds_click_prompt (P : event -> Prop) (text : string) (default : Z) :
  P (Prompt text) -> adds P (click_prompt text default).
Proof.
  intros He s. exists [Prompt text]. unfold click_prompt.
  split; [by destruct (responses s)|by constructor].
Qed.

Lemma adds_bind {A B : Type} (P : event -> Prop) (m : M A) (f : A -> M B) :
  adds P m -> (forall a, adds P (f a)) -> adds P (m ≫= f).
Proof.
  intros Hm Hf s. rewrite run_bind.
  destruct (Hm s) as (evs & Hevs & HP). destruct (m s) as [[e|a] s']; simpl in *.
  - by exists evs.
  - destruct (Hf a s') as (evs' & Hevs' & HP'). exists (evs ++ evs').
    split; [by rewrite Hevs', Hevs, (assoc_L (++))|by apply Forall_app].
Qed.

Lemma adds_except {A : Type} (P : event -> Prop) (body : M A) (handler : string -> M A) :
  adds P body -> (forall msg, adds P (handler msg)) -> adds P (except_ClientError body handler).
Proof.
  intros Hbody Hhandler s. unfold except_ClientError.
  destruct (Hbody s) as (evs & Hevs & HP). destruct (body s) as [[e|a] s']; simpl in *.
  - destruct e; try by exists evs.
    destruct (Hhandler msg s') as (evs' & Hevs' & HP'). exists (evs ++ evs').
    split; [by rewrite Hevs', Hevs, (assoc_L (++))|by apply Forall_app].
  - by exists evs.
Qed.

Lemma adds_for {A : Type} (P : event -> Prop) (l : list A) (body : A -> M unit) :
  (forall x, adds P (body x)) -> adds P (for_ l body).
Proof.
  intros Hbody. induction l as [|x l IH]; simpl.
  - apply adds_ret.
  - apply adds_bind; [apply Hbody|by intros _].
Qed.

Create HintDb adds.

#[global] Hint Resolve adds_ret adds_raise adds_sys_exit adds_lift adds_local : adds.
#[global] Hint Extern 1 (adds _ (emit _)) => apply adds_emit; intros ?; discriminate : adds.
#[global] Hint Extern 1 (adds _ (click_echo _ _)) =>
  apply adds_click_echo; intros ?; discriminate : adds.
#[global] Hint Extern 1 (adds _ (click_prompt _ _)) =>
  apply adds_click_prompt; intros ?; discriminate : adds.
#[global] Hint Extern 2 (adds _ (_ ≫= _)) => apply adds_bind; [|intros ?] : adds.
#[global] Hint Extern 2 (adds _ (except_ClientError _ _)) =>
  apply adds_except; [|intros ?] : adds.
#[global] Hint Extern 2 (adds _ (for_ _ _)) => apply adds_for; intros [? ?] : adds.
#[global] Hint Extern 3 (adds _ (if ?b then _ else _)) => destruct b : adds.
#[global] Hint Extern 3 (adds _ (match ?x with inl _ => _ | inr _ => _ end)) =>
  destruct x : adds.
#[global] Hint Extern 3 (adds _ (match ?x with Some _ => _ | None => _ end)) =>
  destruct x : adds.

Lemma create_ssh_command_adds_no_Shell (ec2 : session)
    (instance_id : option string) (instance_tags : option dict)
    (username key_file : option string) (port : Z) (ssh_options : option string)
    (use_private_ip : bool) (gateway_instance_id gateway_username : option string) :
  adds not_Shell
    (create_ssh_command ec2 instance_id instance_tags username key_file port ssh_options
       use_private_ip gateway_instance_id gateway_username).
Proof.
  unfold create_ssh_command, create_ssh_command_target, create_ssh_command_cmd,
    invalid_instance_id, candidate_line, Instance_load, iterate, _get_instance_ip_address,
    not_Shell.
  destruct instance_id, instance_tags; auto 30 with adds.
Qed.

(** ** How the commands can end *)

Lemma cmd_gateway_invalid (ec2 : session) (target : option (Instance.t * option string))
    (username key_file : option string) (port : Z) (ssh_options : option string)
    (gid : string) (gateway_username : option string) (msg : string) (s : state) :
  ec2_Instance ec2 gid = inl msg ->
  create_ssh_command_cmd ec2 target username key_file port ssh_options
    (Some gid) gateway_username s
  = (inl (ClientError msg), log s [Describe gid]).
Proof.
  intros Hg. unfold create_ssh_command_cmd.
  by rewrite run_bind, run_Instance_load, Hg.
Qed.

Lemma cmd_unbound (ec2 : session)
    (username key_file : option string) (port : Z) (ssh_options : option string)
    (gateway_instance_id gateway_username : option string) (s : state) :
  (gateway_instance_id = None \/
   exists gid i, gateway_instance_id = Some gid /\ ec2_Instance ec2 gid = inr i) ->
  create_ssh_command_cmd ec2 None username key_file port ssh_options
    gateway_instance_id gateway_username s
  = (inl UnboundLocalError,
     log s (from_option (fun gid => [Describe gid]) [] gateway_instance_id)).
Proof.
  intros [->|(gid & i & -> & Hg)]; unfold create_ssh_command_cmd.
  - simpl. by rewrite log_nil.
  - by rewrite run_bind, run_Instance_load, Hg.
Qed.

(** Every way [create_ssh_command_target] can end. *)
Lemma target_outcome (ec2 : session) (instance_id : option string)
    (instance_tags : option dict) (use_private_ip : bool) (s : state) :
  exists r s',
    create_ssh_command_target ec2 instance_id instance_tags use_private_ip s = (r, s')
    /\ (r = inl (SystemExit 2)
        \/ (r = inl Abort /\ instance_id = None /\ responses s = [])
        \/ (exists i hostname, r = inr (Some (i, hostname)))
        \/ (instance_id = None /\ instance_tags = None /\ r = inr None /\ s' = s)).
Proof.
  destruct (create_ssh_command_target ec2 instance_id instance_tags use_private_ip s)
    as [r0 s0] eqn:Hrun.
  exists r0, s0. split; [done|]. revert Hrun.
  destruct instance_id as [iid|]; [|destruct instance_tags as [tags|]].
  - destruct (ec2_Instance ec2 iid) as [msg|i] eqn:Hi.
    + rewrite (target_by_id_invalid _ _ _ _ _ _ Hi). intros [= <- <-]. by left.
    + rewrite (target_by_id_found _ _ _ _ _ _ Hi).
      destruct (run_with_hostname i use_private_ip (log s [Describe iid]))
        as (h & evs & -> & _). intros [= <- <-]. right; right; left. by exists i, h.
  - destruct (ec2_instances_filter ec2 (tag_conditions tags)) as [msg|l] eqn:Hq.
    { rewrite (target_by_tags_error _ _ _ _ _ Hq). intros [= <- <-]. by left. }
    destruct (decide (length l = 1%nat)) as [Hone|Hmany].
    { destruct l as [|i [|? ?]]; try done.
      rewrite (target_by_tags_one _ _ _ _ _ Hq).
      destruct (run_with_hostname i use_private_ip (log s [Query (tag_conditions tags)]))
        as (h & evs & -> & _). intros [= <- <-]. right; right; left. by exists i, h. }
    destruct (responses s) as [|r rs] eqn:Hr.
    { rewrite (target_by_tags_abort _ _ _ _ _ Hq Hmany Hr). intros [= <- <-].
      right; left. done. }
    rewrite (target_by_tags_prompt ec2 use_private_ip s tags l r rs Hq Hmany Hr).
    set (selected_idx := from_option (fun z => z) 0 r).
    destruct ((Z.of_nat (length l) - 1 <? selected_idx) || (selected_idx <? 0)) eqn:Hrange.
    { intros [= <- <-]. by left. }
    destruct (py_getitem_in_range (sorted name_tag l) selected_idx) as (i & -> & _).
    { rewrite sorted_length. lia. }
    destruct (run_with_hostname i use_private_ip
                (log (prompted s tags l rs)
                   [Echo false (pretty selected_idx +:+ " is selected.")]))
      as (h & evs & -> & _). intros [= <- <-]. right; right; left. by exists i, h.
  - intros [= <- <-]. right; right; right. done.
Qed.

Lemma parse_tags_error (tags : string) (e : exn) :
  _parse_tags tags = inl e -> e = ValueError.
Proof.
  rewrite parse_tags_fold. intros Hparse.
  destruct (parse_entries [] (split ","%char tags)) as [[H _]|[[d' H] _]];
    unfold dict in *; congruence.
Qed.

(** Every way [ssh] can end, and what has to be the case for each. *)
Lemma ssh_outcome (session : session) (shell : string -> Z)
    (instance_id instance_name instance_tags username key_file : option string)
    (port : Z) (ssh_options : option string) (private_ip : bool)
    (gateway_instance_id gateway_username : option string) (dry_run : bool) (s : state) :
  let r := (ssh session shell instance_id instance_name instance_tags username key_file port
              ssh_options private_ip gateway_instance_id gateway_username dry_run s).1 in
  r = inr tt
  \/ (r = inl (SystemExit 1) /\ count_None [instance_id; instance_name; instance_tags] <> 2)
  \/ r = inl (SystemExit 2)
  \/ (r = inl ValueError
      /\ exists tags, instance_tags = Some tags /\ _parse_tags tags = inl ValueError)
  \/ (r = inl Abort /\ instance_id = None /\ responses s = [])
  \/ (exists msg gid, r = inl (ClientError msg) /\ gateway_instance_id = Some gid
                      /\ ec2_Instance session gid = inl msg).
Proof.
  intros r. unfold r. clear r.
  destruct (decide (count_None [instance_id; instance_name; instance_tags] = 2))
    as [Hcount|Hcount].
  2:{ destruct (ssh_rejected session shell instance_id instance_name instance_tags username
                  key_file port ssh_options private_ip gateway_instance_id gateway_username
                  dry_run s Hcount) as [message ->]. right; left. done. }
  rewrite ssh_run by done.
  destruct (instance_tags_dict instance_name instance_tags) as [e|d] eqn:Hdict.
  { right; right; right; left.
    destruct instance_name, instance_tags as [tags|]; simpl in Hdict; try done.
    destruct (_parse_tags tags) as [e'|?] eqn:Hparse; [|done].
    injection Hdict as <-.
    apply parse_tags_error in Hparse as Hv. subst e'.
    split; [done|]. by exists tags. }
  unfold create_ssh_command. rewrite run_bind.
  destruct (target_outcome session instance_id d private_ip s)
    as (t & s1 & -> & [->|[(-> & Hid & Hr)|[(i & h & ->)|(Hid & Hd & _)]]]).
  { right; right; left. done. }
  { do 4 right. left. done. }
  2:{ exfalso. subst.
      destruct instance_name, instance_tags as [tags|]; simpl in Hdict; try done.
      by destruct (_parse_tags tags). }
  destruct gateway_instance_id as [gid|].
  - destruct (ec2_Instance session gid) as [msg|g] eqn:Hg.
    + rewrite (cmd_gateway_invalid _ _ _ _ _ _ _ _ _ _ Hg).
      do 5 right. by exists msg, gid.
    + rewrite (cmd_gateway _ _ _ _ _ _ _ _ _ _ _ Hg). left. by destruct dry_run.
  - rewrite cmd_direct. left. by destruct dry_run.
Qed.

(** X1. Composing never executes: [create_ssh_command] adds no [Shell] event.
    [ssh] hands a command to the shell at most once, as its last action and
    only when it returns normally without --dry-run; with --dry-run the last
    action is printing the command instead. *)
Theorem shell_only_after_success (session : session) (shell : string -> Z)
    (instance_id instance_name instance_tags username key_file : option string)
    (port : Z) (ssh_options : option string) (private_ip : bool)
    (gateway_instance_id gateway_username : option string) (dry_run : bool) (s : state) :
  (forall d,
     adds not_Shell
       (create_ssh_command session instance_id d username key_file port ssh_options
          private_ip gateway_instance_id gateway_username))
  /\ exists evs,
       Forall not_Shell evs
       /\ ((exists cmd,
              (ssh session shell instance_id instance_name instance_tags username key_file
                 port ssh_options private_ip gateway_instance_id gateway_username
                 dry_run s).1 = inr tt
              /\ trace (ssh session shell instance_id instance_name instance_tags username
                          key_file port ssh_options private_ip gateway_instance_id
                          gateway_username dry_run s).2
                 = trace s ++ evs ++ [if dry_run then Echo false cmd else Shell cmd])
           \/ (exists e,
                 (ssh session shell instance_id instance_name instance_tags username key_file
                    port ssh_options private_ip gateway_instance_id gateway_username
                    dry_run s).1 = inl e
                 /\ trace (ssh session shell instance_id instance_name instance_tags username
                             key_file port ssh_options private_ip gateway_instance_id
                             gateway_username dry_run s).2 = trace s ++ evs)).
Proof.
  split; [intros d; apply create_ssh_command_adds_no_Shell|].
  destruct (decide (count_None [instance_id; instance_name; instance_tags] = 2))
    as [Hcount|Hcount].
  2:{ destruct (ssh_rejected session shell instance_id instance_name instance_tags username
                  key_file port ssh_options private_ip gateway_instance_id gateway_username
                  dry_run s Hcount) as [message ->].
      exists [Echo true message]. split; [by repeat constructor|]. right. by eexists. }
  rewrite ssh_run by done.
  destruct (instance_tags_dict instance_name instance_tags) as [e|d].
  { exists []. split; [constructor|]. right. exists e. simpl. by rewrite app_nil_r. }
  destruct (create_ssh_command_adds_no_Shell session instance_id d username key_file port
              ssh_options private_ip gateway_instance_id gateway_username s)
    as (evs & Hevs & Hno).
  exists evs. split; [done|].
  destruct (create_ssh_command _ _ _ _ _ _ _ _ _ _ s) as [[e|cmd] s1]; simpl in Hevs.
  - right. by exists e.
  - left. exists cmd. destruct dry_run; simpl; rewrite Hevs, <- (assoc_L (++)); done.
Qed.

(** X2. [ssh] ends with status 0, 1 or 2, and with 0 only by returning
    normally. It never dies of an unbound local, a bad index or a format
    error. What escapes uncaught is the [ValueError] of a malformed tag
    string, the abort of a prompt at end of input, and the [ClientError] of a
    failed gateway lookup. *)
Theorem ssh_exit_status (session : session) (shell : string -> Z)
    (instance_id instance_name instance_tags username key_file : option string)
    (port : Z) (ssh_options : option string) (private_ip : bool)
    (gateway_instance_id gateway_username : option string) (dry_run : bool) (s : state) :
  let r := (ssh session shell instance_id instance_name instance_tags username key_file port
              ssh_options private_ip gateway_instance_id gateway_username dry_run s).1 in
  (exit_status r = 0 \/ exit_status r = 1 \/ exit_status r = 2)
  /\ (exit_status r = 0 <-> r = inr tt)
  /\ r <> inl UnboundLocalError /\ r <> inl IndexError /\ r <> inl TypeError
  /\ (r = inl ValueError ->
      exists tags, instance_tags = Some tags /\ _parse_tags tags = inl ValueError)
  /\ (r = inl Abort -> instance_id = None /\ responses s = [])
  /\ (forall msg, r = inl (ClientError msg) ->
      exists gid, gateway_instance_id = Some gid /\ ec2_Instance session gid = inl msg).
Proof.
  intros r.
  destruct (ssh_outcome session shell instance_id instance_name instance_tags username
              key_file port ssh_options private_ip gateway_instance_id gateway_username
              dry_run s)
    as [H|[[H ?]|[H|[[H ?]|[[H ?]|(msg & gid & H & ? & ?)]]]]];
    fold r in H; rewrite H; simpl;
    (split; [auto|]); (split; [split; [done|by intros [=]]|]);
    repeat (split; [try done|]); try done.
  intros msg' [= <-]. by exists gid.
Qed.

Lemma ssh_exit_status_witness :
  exists tags, Some "env" = Some tags /\ _parse_tags tags = inl ValueError.
Proof.
  apply (ssh_exit_status ex_session ex_shell None None (Some "env") None None 22 None false
           None None false (ex_state [])).
  reflexivity.
Defined.

(** X3. Selection by id with an id the provider rejects: one line on standard
    error that names the id and the provider's message, then [sys.exit(2)].
    The gateway is not looked up, whatever the other options are. *)
Theorem ssh_unknown_instance_id (session : session) (shell : string -> Z)
    (iid : string) (username key_file : option string)
    (port : Z) (ssh_options : option string) (private_ip : bool)
    (gateway_instance_id gateway_username : option string) (dry_run : bool) (s : state)
    (msg : string) :
  ec2_Instance session iid = inl msg ->
  ssh session shell (Some iid) None None username key_file port ssh_options private_ip
    gateway_instance_id gateway_username dry_run s
  = (inl (SystemExit 2),
     log s [Describe iid;
            Echo true ("Invalid instance ID " +:+ iid +:+ " (" +:+ msg +:+ ")")]).
Proof.
  intros Hi. rewrite ssh_run by done. simpl.
  unfold create_ssh_command. rewrite run_bind.
  by rewrite (target_by_id_invalid _ _ _ _ _ _ Hi).
Qed.

Lemma ssh_unknown_instance_id_witness :
  exit_status (ssh ex_session ex_shell (Some "i-404") None None None None 22 None false
                 (Some "i-gw") None false (ex_state [])).1 = 2.
Proof.
  rewrite (ssh_unknown_instance_id ex_session ex_shell "i-404" None None 22 None false
             (Some "i-gw") None false (ex_state []) "InvalidInstanceID.NotFound" eq_refl).
  reflexivity.
Defined.

(** X4. Selection by name or tags when the provider rejects the query: the
    handler formats [instance_id], which is [None] on this path, so the line
    on standard error reads Invalid instance ID None; then [sys.exit(2)],
    without a prompt. *)
Theorem ssh_query_rejected (session : session) (shell : string -> Z)
    (instance_name instance_tags username key_file : option string)
    (port : Z) (ssh_options : option string) (private_ip : bool)
    (gateway_instance_id gateway_username : option string) (dry_run : bool) (s : state)
    (d : dict) (msg : string) :
  count_None [None; instance_name; instance_tags] = 2 ->
  instance_tags_dict instance_name instance_tags = inr (Some d) ->
  ec2_instances_filter session (tag_conditions d) = inl msg ->
  ssh session shell None instance_name instance_tags username key_file port ssh_options
    private_ip gateway_instance_id gateway_username dry_run s
  = (inl (SystemExit 2),
     log s [Query (tag_conditions d);
            Echo true ("Invalid instance ID None (" +:+ msg +:+ ")")]).
Proof.
  intros Hcount Hdict Hq. rewrite ssh_run, Hdict by done.
  unfold create_ssh_command. rewrite run_bind.
  by rewrite (target_by_tags_error _ _ _ _ _ Hq).
Qed.

Lemma ssh_query_rejected_witness :
  ssh ex_outage ex_shell None (Some "web") None None None 22 None false None None false
    (ex_state [None])
  = (inl (SystemExit 2),
     {| responses := [None];
        trace := [Query (tag_conditions [("Name", "web")]);
                  Echo true "Invalid instance ID None (RequestExpired)"] |}).
Proof.
  apply (ssh_query_rejected ex_outage ex_shell (Some "web") None None None 22 None false
           None None false (ex_state [None]) [("Name", "web")] "RequestExpired");
    reflexivity.
Defined.



Lemma cmd_adds_Describe (ec2 : session) (target : option (Instance.t * option string))
    (username key_file : option string) (port : Z) (ssh_options : option string)
    (gateway_instance_id gateway_username : option string) (s : state) :
  exists r evs,
    create_ssh_command_cmd ec2 target username key_file port ssh_options
      gateway_instance_id gateway_username s = (r, log s evs)
    /\ Forall not_Prompt evs.
Proof.
  unfold create_ssh_command_cmd.
  destruct gateway_instance_id as [gid|].
  - rewrite run_bind, run_Instance_load.
    destruct (ec2_Instance ec2 gid) as [msg|g].
    + eexists _, _. split; [done|]. by repeat constructor.
    + rewrite run_bind. destruct target as [[i h]|]; simpl.
      * eexists _, _. split; [done|]. by repeat constructor.
      * eexists _, _. split; [done|]. by repeat constructor.
  - rewrite run_bind. destruct target as [[i h]|]; simpl.
    + eexists _, []. rewrite log_nil. split; [done|]. constructor.
    + eexists _, []. rewrite log_nil. split; [done|]. constructor.
Qed.

(** X6. Selection by id asks the user nothing: the run begins with the lookup
    of the id, adds no prompt and leaves the pending responses alone; tags
    passed alongside an id are ignored. *)
Theorem by_id_never_prompts (ec2 : session) (iid : string) (instance_tags : option dict)
    (username key_file : option string) (port : Z) (ssh_options : option string)
    (use_private_ip : bool) (gateway_instance_id gateway_username : option string)
    (s : state) :
  (exists r evs,
     create_ssh_command ec2 (Some iid) instance_tags username key_file port ssh_options
       use_private_ip gateway_instance_id gateway_username s
     = (r, log s (Describe iid :: evs))
     /\ Forall not_Prompt evs)
  /\ create_ssh_command ec2 (Some iid) instance_tags username key_file port ssh_options
       use_private_ip gateway_instance_id gateway_username s
     = create_ssh_command ec2 (Some iid) None username key_file port ssh_options
         use_private_ip gateway_instance_id gateway_username s.
Proof.
  split; [|done].
  unfold create_ssh_command. rewrite run_bind.
  destruct (ec2_Instance ec2 iid) as [msg|i] eqn:Hi.
  - rewrite (target_by_id_invalid _ _ _ _ _ _ Hi).
    eexists _, [_]. split; [done|]. by repeat constructor.
  - rewrite (target_by_id_found _ _ _ _ _ _ Hi).
    destruct (run_with_hostname i use_private_ip (log s [Describe iid]))
      as (h & evs & -> & Hevs).
    destruct (cmd_adds_Describe ec2 (Some (i, h)) username key_file port ssh_options
                gateway_instance_id gateway_username (log (log s [Describe iid]) evs))
      as (r & evs' & -> & Hevs').
    exists r, (evs ++ evs'). rewrite !log_log. split; [done|].
    apply Forall_app. split; [|done].
    eapply Forall_impl; [exact Hevs|]. by intros e [message ->] text.
Qed.

(** X7. Lookups by id are not restricted to running instances, so the
    instance may have no address at all: then the fallback warning is printed
    (unless --private-ip is given) and the command is composed for the host
    named None. *)
Theorem instance_without_address (ec2 : session) (iid : string) (instance_tags : option dict)
    (username key_file : option string) (port : Z) (ssh_options : option string)
    (use_private_ip : bool) (gateway_username : option string) (s : state)
    (i : Instance.t) :
  ec2_Instance ec2 iid = inr i ->
  Instance.public_ip_address i = None ->
  Instance.private_ip_address i = None ->
  create_ssh_command ec2 (Some iid) instance_tags username key_file port ssh_options
    use_private_ip None gateway_username s
  = (inr ("ssh" +:+ build_option_username username +:+ " None"
          +:+ key_file_text key_file +:+ " -p " +:+ pretty port
          +:+ ssh_options_text ssh_options),
     log s (Describe iid
            :: if use_private_ip then []
               else [Echo false
                       "Public IP address not set. Attempting to use the private IP address."])).
Proof.
  intros Hi Hpublic Hprivate. unfold create_ssh_command.
  rewrite run_bind, (target_by_id_found _ _ _ _ _ _ Hi).
  unfold with_hostname, _get_instance_ip_address. rewrite Hpublic, Hprivate.
  destruct use_private_ip.
  - rewrite run_bind, run_ret, run_ret, cmd_direct. done.
  - rewrite !run_bind, run_click_echo, run_ret, run_ret, cmd_direct, log_log. done.
Qed.

Lemma instance_without_address_witness :
  create_ssh_command ex_outage (Some "i-old") None (Some "bob") None 22 None false None None
    (ex_state [])
  = (inr "ssh -l bob None -p 22",
     {| responses := [];
        trace := [Describe "i-old";
                  Echo false
                    "Public IP address not set. Attempting to use the private IP address."] |}).
Proof.
  apply (instance_without_address ex_outage "i-old" None (Some "bob") None 22 None false None
           (ex_state []) ex_terminated); reflexivity.
Defined.

(** X8. [create_ssh_command] itself does not check that a selection was
    given: with neither id nor tags it raises [UnboundLocalError], after the
    gateway lookup when a gateway id is given. [ssh] never gets there. *)
Theorem neither_id_nor_tags (ec2 : session)
    (username key_file : option string) (port : Z) (ssh_options : option string)
    (use_private_ip : bool) (gateway_username : option string) (s : state) :
  create_ssh_command ec2 None None username key_file port ssh_options use_private_ip
    None gateway_username s = (inl UnboundLocalError, s)
  /\ (forall gid g, ec2_Instance ec2 gid = inr g ->
        create_ssh_command ec2 None None username key_file port ssh_options use_private_ip
          (Some gid) gateway_username s = (inl UnboundLocalError, log s [Describe gid]))
  /\ (forall shell instance_id instance_name instance_tags gateway_instance_id dry_run,
        (ssh ec2 shell instance_id instance_name instance_tags username key_file port
           ssh_options use_private_ip gateway_instance_id gateway_username dry_run s).1
        <> inl UnboundLocalError).
Proof.
  assert (Htarget : create_ssh_command_target ec2 None None use_private_ip s = (inr None, s))
    by reflexivity.
  split; [|split].
  - unfold create_ssh_command. rewrite (run_bind_ok _ _ _ _ _ Htarget).
    rewrite cmd_unbound by (by left). simpl. by rewrite log_nil.
  - intros gid g Hg. unfold create_ssh_command. rewrite (run_bind_ok _ _ _ _ _ Htarget).
    rewrite cmd_unbound by (right; by exists gid, g). done.
  - intros shell instance_id instance_name instance_tags gateway_instance_id dry_run.
    destruct (ssh_outcome ec2 shell instance_id instance_name instance_tags username
                key_file port ssh_options use_private_ip gateway_instance_id gateway_username
                dry_run s)
      as [H|[[H ?]|[H|[[H ?]|[[H ?]|(msg & gid & H & ? & ?)]]]]]; by rewrite H.
Qed.

Lemma neither_id_nor_tags_witness :
  create_ssh_command ex_session None None None None 22 None false (Some "i-gw") None
    (ex_state [])
  = (inl UnboundLocalError, {| responses := []; trace := [Describe "i-gw"] |}).
Proof.
  apply (neither_id_nor_tags ex_session None None 22 None false None (ex_state [])
         : _ /\ (forall gid g, _ -> _) /\ _) with (g := ex_gateway).
  reflexivity.
Defined.

(** ** The listing *)

Lemma length_app (a b : string) :
  String.length (a +:+ b) = (String.length a + String.length b)%nat.
Proof. induction a as [|c a IH]; [done|]. simpl. by rewrite <- IH. Qed.

Lemma string_app_assoc (a b c : string) : (a +:+ b) +:+ c = a +:+ b +:+ c.
Proof. induction a as [|x a IH]; [done|]. exact (f_equal (String x) IH). Qed.

Lemma length_spaces (n : nat) : String.length (spaces n) = n.
Proof. induction n as [|n IH]; simpl; [done|by rewrite IH]. Qed.

Lemma length_ljust (w : nat) (s : string) :
  String.length (ljust w s) = (w `max` String.length s)%nat.
Proof. unfold ljust. rewrite length_app, length_spaces. lia. Qed.

Lemma mapM_cases {A B : Type} (f : A -> exn + B) (e0 : exn) (bad : A -> Prop) (l : list A) :
  (forall x, (bad x /\ f x = inl e0) \/ (~ bad x /\ exists y, f x = inr y)) ->
  (mapM f l = inl e0 /\ Exists bad l)
  \/ ((exists ys, mapM f l = inr ys) /\ Forall (fun x => ~ bad x) l).
Proof.
  intros Hf. induction l as [|x l IH]; simpl.
  - right. split; [by eexists|constructor].
  - destruct (Hf x) as [[Hx ->]|(Hx & y & ->)].
    + left. split; [done|by apply Exists_cons_hd].
    + destruct IH as [[-> Hl]|[[ys ->] Hl]].
      * left. split; [done|by apply Exists_cons_tl].
      * right. split; [by eexists|by constructor].
Qed.

Lemma format_aligned_line (w : nat) (i : Instance.t) :
  format [Arg 0 (Some w); Arg 1 (Some 16%nat); Arg 2 (Some 21%nat);
          Arg 3 (Some 16%nat); Arg 4 (Some 16%nat)]
         [PStr (get_tag_value (Instance.tags i) "Name"); PStr (Instance.state_Name i);
          PStr (Instance.id i); POpt (Instance.private_ip_address i);
          PStr (py_str (Instance.public_ip_address i))]
  = match Instance.private_ip_address i with
    | None => inl TypeError
    | Some _ => inr (aligned_line w i)
    end.
Proof.
  unfold aligned_line. simpl.
  destruct (Instance.private_ip_address i); simpl; [|done]. by rewrite app_empty_r.
Qed.

Lemma format_output_aligned (instances : list Instance.t) :
  (format_output instances true = inl TypeError
   /\ Exists (fun i => Instance.private_ip_address i = None) instances)
  \/ (format_output instances true
      = inr (map (aligned_line (_get_max_name_len instances + 3)) instances)
      /\ Forall (fun i => Instance.private_ip_address i <> None) instances).
Proof.
  unfold format_output.
  set (f := fun i : Instance.t => format _ _).
  destruct (mapM_cases f TypeError
              (fun i => Instance.private_ip_address i = None) instances) as [H|[_ H]].
  - intros i. unfold f. rewrite format_aligned_line.
    destruct (Instance.private_ip_address i); [right|left]; split; try done. by eexists.
  - by left.
  - right. split; [|done]. apply mapM_inr.
    eapply Forall_impl; [exact H|]. intros i Hi. unfold f. rewrite format_aligned_line.
    simpl in Hi. by destruct (Instance.private_ip_address i).
Qed.

Lemma format_output_plain (instances : list Instance.t) :
  exists out, format_output instances false = inr out.
Proof.
  unfold format_output. eexists. apply mapM_inr, Forall_forall. intros i _. by simpl.
Qed.

Lemma max_name_len_bound (instances : list Instance.t) :
  Forall (fun i => (String.length (get_tag_value (Instance.tags i) "Name")
                    <= _get_max_name_len instances)%nat) instances.
Proof.
  destruct instances as [|i0 l]; [constructor|].
  unfold _get_max_name_len.
  set (len := fun i : Instance.t => String.length (get_tag_value (Instance.tags i) "Name")).
  apply Forall_forall. intros i Hi.
  apply max_list_elem_of_le. apply (list_elem_of_fmap_2 len). done.
Qed.

(** X9. [_get_max_name_len] is the length of the longest Name tag: no
    instance has a longer one, some instance has exactly that one, and it is 0
    for no instances (and when no instance has a Name tag). *)
Theorem get_max_name_len_spec (instances : list Instance.t) :
  Forall (fun i => (String.length (get_tag_value (Instance.tags i) "Name")
                    <= _get_max_name_len instances)%nat) instances
  /\ (instances <> [] ->
      exists i, i ∈ instances
                /\ String.length (get_tag_value (Instance.tags i) "Name")
                   = _get_max_name_len instances)
  /\ (instances = [] -> _get_max_name_len instances = 0%nat)
  /\ (Forall (fun i => Instance.tags i = None) instances ->
      _get_max_name_len instances = 0%nat).
Proof.
  split; [apply max_name_len_bound|].
  destruct instances as [|i0 l]; [repeat split; done|].
  unfold _get_max_name_len.
  set (len := fun i : Instance.t => String.length (get_tag_value (Instance.tags i) "Name")).
  repeat split; try done.
  - intros _.
    destruct (list_elem_of_fmap_1 len (i0 :: l) (max_list (len <$> i0 :: l))) as (i & Hi & Hin).
    { by apply max_list_elem_of. }
    by exists i.
  - intros Hnone.
    assert (Hzero : Forall (fun n => n = 0%nat) (len <$> i0 :: l)).
    { apply Forall_fmap. eapply Forall_impl; [exact Hnone|].
      intros i Hi. unfold len. simpl. by rewrite Hi. }
    pose proof (max_list_elem_of (len <$> i0 :: l)) as Hmax.
    rewrite Forall_forall in Hzero. apply Hzero, Hmax. done.
Qed.

Lemma get_max_name_len_spec_witness :
  exists i, i ∈ [ex_gateway; ex_a]
            /\ String.length (get_tag_value (Instance.tags i) "Name")
               = _get_max_name_len [ex_gateway; ex_a].
Proof.
  apply (get_max_name_len_spec [ex_gateway; ex_a]). discriminate.
Defined.

(** X10. The aligned listing is a table. When every instance has a private
    address, each line is the five fields in full, each followed by the
    spaces that fill its column: the Name tag in a column of the longest name
    plus 3, so with at least three spaces after it, then state, id, private
    and public address in columns of 16, 21, 16 and 16. A field longer than
    its column is not cut, it is followed by no space; and the lines of
    instances whose fields fit their columns all have the same length. *)
Theorem aligned_listing_is_a_table (instances : list Instance.t) :
  Forall (fun i => Instance.private_ip_address i <> None) instances ->
  let w := (_get_max_name_len instances + 3)%nat in
  exists out,
    format_output instances true = inr out
    /\ Forall2 (fun i line =>
                  let name := get_tag_value (Instance.tags i) "Name" in
                  let state := Instance.state_Name i in
                  let id := Instance.id i in
                  let private := py_str (Instance.private_ip_address i) in
                  let public := py_str (Instance.public_ip_address i) in
                  (String.length name + 3 <= w)%nat
                  /\ line = name +:+ spaces (w - String.length name)
                            +:+ state +:+ spaces (16 - String.length state)
                            +:+ id +:+ spaces (21 - String.length id)
                            +:+ private +:+ spaces (16 - String.length private)
                            +:+ public +:+ spaces (16 - String.length public)
                  /\ (w + 69 <= String.length line)%nat
                  /\ (fits i -> String.length line = (w + 69)%nat))
               instances out.
Proof.
  intros Hprivate w.
  destruct (format_output_aligned instances) as [[_ Hbad]|[Hrun _]].
  { exfalso. apply Exists_exists in Hbad as (i & Hi & Hnone).
    rewrite Forall_forall in Hprivate. by apply (Hprivate i). }
  exists (map (aligned_line w) instances). split; [done|].
  apply Forall2_fmap_r, Forall_Forall2_diag.
  pose proof (max_name_len_bound instances) as Hmax.
  eapply Forall_impl; [exact Hmax|]. intros i Hi. cbv beta zeta in *.
  unfold aligned_line. split; [unfold w; lia|]. split.
  { unfold ljust. by rewrite !string_app_assoc. }
  rewrite !length_app, !length_ljust. split; [lia|].
  unfold fits. lia.
Qed.

Lemma aligned_listing_is_a_table_witness :
  exists out,
    format_output [ex_gateway; ex_a] true = inr out
    /\ Forall2 (fun i line =>
                  let name := get_tag_value (Instance.tags i) "Name" in
                  let state := Instance.state_Name i in
                  let id := Instance.id i in
                  let private := py_str (Instance.private_ip_address i) in
                  let public := py_str (Instance.public_ip_address i) in
                  (String.length name + 3 <= 5)%nat
                  /\ line = name +:+ spaces (5 - String.length name)
                            +:+ state +:+ spaces (16 - String.length state)
                            +:+ id +:+ spaces (21 - String.length id)
                            +:+ private +:+ spaces (16 - String.length private)
                            +:+ public +:+ spaces (16 - String.length public)
                  /\ (5 + 69 <= String.length line)%nat
                  /\ (fits i -> String.length line = (5 + 69)%nat))
               [ex_gateway; ex_a] out.
Proof.
  apply (aligned_listing_is_a_table [ex_gateway; ex_a]).
  repeat constructor; discriminate.
Defined.

(** X11. The aligned listing fails exactly when some instance has no private
    address: the column spec on [None] raises [TypeError] and no line is
    returned at all. Nothing else makes [format_output] fail, and the
    tab-separated listing never fails. *)
Theorem aligned_listing_needs_private_addresses (instances : list Instance.t) :
  (format_output instances true = inl TypeError
   <-> Exists (fun i => Instance.private_ip_address i = None) instances)
  /\ (forall flag e, format_output instances flag = inl e -> flag = true /\ e = TypeError).
Proof.
  split; [split|].
  - intros Hrun. destruct (format_output_aligned instances) as [[_ H]|[H _]]; [done|].
    by rewrite H in Hrun.
  - intros Hbad. destruct (format_output_aligned instances) as [[H _]|[_ H]]; [done|].
    exfalso. apply Exists_exists in Hbad as (i & Hi & Hnone).
    rewrite Forall_forall in H. by apply (H i).
  - intros [|] e Hrun.
    + destruct (format_output_aligned instances) as [[H _]|[H _]];
        rewrite H in Hrun; by simplify_eq.
    + destruct (format_output_plain instances) as [out H]. by rewrite H in Hrun.
Qed.

Lemma aligned_listing_needs_private_addresses_witness :
  format_output [ex_gateway; ex_terminated] true = inl TypeError.
Proof.
  apply (aligned_listing_needs_private_addresses [ex_gateway; ex_terminated]).
  apply Exists_cons_tl, Exists_cons_hd. reflexivity.
Defined.

(** X12. [get_tag_value] returns the value of the first tag with the key:
    later tags with the same key are ignored. A result that is not empty is
    the value of a tag with that key. *)
Theorem get_tag_value_first_match (key : string) :
  (forall pre v post,
     Forall (fun y => Key y <> key) pre ->
     get_tag_value (Some (pre ++ {| Key := key; Value := v |} :: post)) key = v)
  /\ (forall x,
        get_tag_value x key <> "" ->
        exists tags y, x = Some tags /\ y ∈ tags /\ Key y = key
                       /\ Value y = get_tag_value x key).
Proof.
  split.
  - intros pre v post Hpre. unfold get_tag_value.
    rewrite filter_app, filter_cons.
    replace (filter (fun y => Key y = key) pre) with (@nil tag).
    + simpl. by destruct (decide (key = key)).
    + induction Hpre as [|y pre Hy _ IH]; [done|].
      rewrite filter_cons. by destruct (decide (Key y = key)).
  - intros [tags|] Hne; [|done]. unfold get_tag_value in *.
    destruct (filter (fun y => Key y = key) tags) as [|y ys] eqn:Hf; [done|].
    assert (Hy : y ∈ filter (fun y => Key y = key) tags) by (rewrite Hf; left).
    apply list_elem_of_filter in Hy as [Hk Hin].
    by exists tags, y.
Qed.

Lemma get_tag_value_first_match_witness :
  get_tag_value (Some ([ {| Key := "env"; Value := "prod" |} ]
                       ++ {| Key := "Name"; Value := "web" |}
                       :: [ {| Key := "Name"; Value := "db" |} ])) "Name" = "web".
Proof.
  apply (get_tag_value_first_match "Name"). repeat constructor. discriminate.
Defined.

(** ** Tag strings and the dictionary they build *)

Lemma dict_get_set (k v k' : string) (d : dict) :
  dict_get k' (dict_set k v d) = if String.eqb k k' then Some v else dict_get k' d.
Proof.
  induction d as [|[k0 v0] d IH]; simpl; [done|].
  destruct (String.eqb_spec k0 k) as [->|Hk0]; simpl.
  - by destruct (String.eqb_spec k k').
  - rewrite IH. destruct (String.eqb_spec k0 k') as [->|?]; [|done].
    by destruct (String.eqb_spec k k').
Qed.

Lemma dict_set_keys (k v : string) (d : dict) (x : string) :
  x ∈ (dict_set k v d).*1 -> x = k \/ x ∈ d.*1.
Proof.
  induction d as [|[k0 v0] d IH]; simpl.
  - intros ->%list_elem_of_singleton. by left.
  - destruct (String.eqb_spec k0 k) as [->|Hk0]; simpl.
    + intros [->|?]%elem_of_cons; [by left|right; by right].
    + intros [->|Hx]%elem_of_cons; [right; by left|].
      destruct (IH Hx) as [->|?]; [by left|right; by right].
Qed.

Lemma dict_set_NoDup (k v : string) (d : dict) : NoDup d.*1 -> NoDup (dict_set k v d).*1.
Proof.
  induction d as [|[k0 v0] d IH]; simpl.
  - intros _. apply NoDup_singleton.
  - intros [Hk0 Hd]%NoDup_cons.
    destruct (String.eqb_spec k0 k) as [->|Hne]; simpl.
    + by apply NoDup_cons.
    + apply NoDup_cons. split; [|by apply IH].
      intros [->|?]%dict_set_keys; done.
Qed.

Lemma parse_entry_pair (d : dict) (tag : string) :
  parse_entry (inr d) tag
  = match entry_pair tag with
    | Some (k, v) => inr (dict_set k v d)
    | None => inl ValueError
    end.
Proof.
  unfold parse_entry, entry_pair.
  by destruct (split ":"%char (strip tag)) as [|k [|v [|? ?]]].
Qed.

Lemma parse_entries_last_wins (entries : list string) (d0 d : dict) :
  foldl parse_entry (inr d0) entries = inr d ->
  NoDup d0.*1 ->
  NoDup d.*1
  /\ forall k,
       dict_get k d
       = match last (filter (fun p => p.1 = k) (omap entry_pair entries)) with
         | Some p => Some p.2
         | None => dict_get k d0
         end.
Proof.
  revert d0. induction entries as [|x xs IH]; intros d0 Hrun Hd0.
  - injection Hrun as <-. done.
  - change (foldl parse_entry (inr d0) (x :: xs))
      with (foldl parse_entry (parse_entry (inr d0) x) xs) in Hrun.
    rewrite parse_entry_pair in Hrun.
    change (omap entry_pair (x :: xs))
      with (match entry_pair x with
            | Some p => p :: omap entry_pair xs
            | None => omap entry_pair xs
            end).
    destruct (entry_pair x) as [[k0 v0]|]; [|by rewrite parse_entry_raised in Hrun].
    destruct (IH _ Hrun (dict_set_NoDup k0 v0 d0 Hd0)) as [Hnd Hget].
    split; [done|]. intros k. rewrite Hget, filter_cons. simpl.
    destruct (decide (k0 = k)) as [->|Hk].
    + rewrite last_cons.
      destruct (last (filter (fun p => p.1 = k) (omap entry_pair xs))); [done|].
      rewrite dict_get_set. by rewrite String.eqb_refl.
    + destruct (last (filter (fun p => p.1 = k) (omap entry_pair xs))); [done|].
      rewrite dict_get_set. by destruct (String.eqb_spec k0 k).
Qed.

(** X13. The dictionary of a tag string has each key once, and a key that is
    given several times keeps the value of its last entry. *)
Theorem parse_tags_last_wins (tags : string) (d : dict) :
  _parse_tags tags = inr d ->
  NoDup d.*1
  /\ forall k,
       dict_get k d
       = snd <$> last (filter (fun p => p.1 = k) (omap entry_pair (split ","%char tags))).
Proof.
  rewrite parse_tags_fold. intros Hrun.
  destruct (parse_entries_last_wins _ _ _ Hrun) as [Hnd Hget]; [constructor|].
  split; [done|]. intros k. rewrite Hget.
  by destruct (last (filter (fun p => p.1 = k) (omap entry_pair (split ","%char tags)))).
Qed.

Lemma parse_tags_last_wins_witness :
  NoDup [("env", "prod"); ("role", "web")].*1
  /\ forall k,
       dict_get k [("env", "prod"); ("role", "web")]
       = snd <$> last (filter (fun p => p.1 = k)
                         (omap entry_pair (split ","%char "env:dev,role:web,env:prod"))).
Proof.
  apply (parse_tags_last_wins "env:dev,role:web,env:prod"). reflexivity.
Defined.

Lemma split_snoc (sep : ascii) (s : string) :
  split sep (s +:+ String sep "") = split sep s ++ [""].
Proof.
  induction s as [|c s IH].
  - simpl. change ("" +:+ String sep "") with (String sep ""). simpl.
    by rewrite Ascii.eqb_refl.
  - change (String c s +:+ String sep "") with (String c (s +:+ String sep "")).
    simpl. rewrite IH. destruct (Ascii.eqb c sep); [done|].
    pose proof (split_length sep s) as Hlen.
    by destruct (split sep s).
Qed.

Lemma parse_tags_blank_entry (tags entry : string) :
  entry ∈ split ","%char tags -> strip entry = "" -> _parse_tags tags = inl ValueError.
Proof.
  intros Hin Hblank. rewrite parse_tags_fold.
  destruct (parse_entries [] (split ","%char tags)) as [[H _]|[_ H]]; [done|].
  rewrite Forall_forall in H. specialize (H entry Hin). by rewrite Hblank in H.
Qed.

(** X14. An entry that is empty or blank is fatal wherever it stands: a tag
    string that ends or begins with a comma, and the empty tag string, raise
    [ValueError]. *)
Theorem parse_tags_empty_entry :
  (forall tags entry,
     entry ∈ split ","%char tags -> strip entry = "" -> _parse_tags tags = inl ValueError)
  /\ (forall s, _parse_tags (s +:+ ",") = inl ValueError)
  /\ (forall s, _parse_tags ("," +:+ s) = inl ValueError)
  /\ _parse_tags "" = inl ValueError.
Proof.
  split; [apply parse_tags_blank_entry|]. split; [|split; [|done]].
  - intros s. apply (parse_tags_blank_entry _ ""); [|done].
    change "," with (String ","%char ""). rewrite split_snoc.
    apply elem_of_app. right. left.
  - intros s. apply (parse_tags_blank_entry _ ""); [|done].
    change ("," +:+ s) with (String ","%char s). simpl. left.
Qed.

Lemma parse_tags_empty_entry_witness : _parse_tags "env:prod, ,role:web" = inl ValueError.
Proof.
  apply (proj1 parse_tags_empty_entry "env:prod, ,role:web" " ").
  - right. left.
  - reflexivity.
Defined.

(** X15. The query for a tag dictionary always starts with the filter on the
    running state and then has one filter per tag, tag:key with the one value,
    in the order of the dictionary. *)
Theorem tag_conditions_shape (d : dict) :
  tag_conditions d
  = {| Name := "instance-state-name"; Values := ["running"] |}
    :: map (fun '(key, value) => {| Name := "tag:" +:+ key; Values := [value] |}) d.
Proof.
  unfold tag_conditions.
  enough (H : forall acc,
             foldl (fun conditions '(key, value) =>
                      conditions ++ [ {| Name := "tag:" +:+ key; Values := [value] |} ])
                   acc d
             = acc ++ map (fun '(key, value) =>
                             {| Name := "tag:" +:+ key; Values := [value] |}) d)
    by apply (H [_]).
  induction d as [|[k v] d IH]; intros acc; simpl.
  - by rewrite app_nil_r.
  - rewrite IH. by rewrite <- (assoc_L (++)).
Qed.

(** ** The candidate list and the selection *)

Lemma leb_ltb_false (s1 s2 : string) : String.leb s1 s2 = true -> String.ltb s2 s1 = false.
Proof.
  unfold String.ltb, String.leb. rewrite (String.compare_antisym s1 s2).
  by destruct (String.compare s2 s1).
Qed.

Lemma sorted_of_sorted {A : Type} (key : A -> string) (l : list A) :
  StronglySorted (key_le key) l -> sorted key l = l.
Proof.
  induction 1 as [|x l Hl IH Hx]; [done|].
  simpl. fold (sorted key l). rewrite IH.
  destruct l as [|y l']; [done|]. simpl.
  apply Forall_cons in Hx as [Hxy _].
  by rewrite (leb_ltb_false _ _ Hxy).
Qed.

Lemma candidate_listed (l : list Instance.t) (n : nat) (i : Instance.t) :
  l !! n = Some i ->
  Echo false (candidate_text (Z.of_nat n) i) ∈ candidate_events (enumerate l).
Proof.
  intros Hn. unfold candidate_events, enumerate.
  apply (list_elem_of_fmap_2' _ _ (Z.of_nat n, i)); [|done].
  apply list_elem_of_lookup. exists n. by rewrite list_lookup_imap, Hn.
Qed.

(** X16. When the provider returns the matches already ordered by Name tag,
    the list shown and the list indexed coincide: the instance selected by an
    answer in range is the one that was printed with that index. *)
Theorem listed_index_selects_when_sorted (ec2 : session) (use_private_ip : bool) (s : state)
    (instance_tags : dict) (l : list Instance.t) (r : option Z) (rs : list (option Z)) :
  ec2_instances_filter ec2 (tag_conditions instance_tags) = inr l ->
  (1 < length l)%nat ->
  StronglySorted (key_le name_tag) l ->
  responses s = r :: rs ->
  0 <= from_option (fun z => z) 0 r < Z.of_nat (length l) ->
  exists i hostname s',
    l !! Z.to_nat (from_option (fun z => z) 0 r) = Some i
    /\ create_ssh_command_target ec2 None (Some instance_tags) use_private_ip s
       = (inr (Some (i, hostname)), s')
    /\ Echo false (candidate_text (from_option (fun z => z) 0 r) i) ∈ trace s'.
Proof.
  intros Hquery Hmany Hsorted Hr Hrange.
  set (selected_idx := from_option (fun z => z) 0 r) in *.
  assert (Hlen : length l <> 1%nat) by lia.
  rewrite (target_by_tags_prompt ec2 use_private_ip s instance_tags l r rs Hquery Hlen Hr).
  fold selected_idx.
  replace ((Z.of_nat (length l) - 1 <? selected_idx) || (selected_idx <? 0))
    with false by lia.
  rewrite (sorted_of_sorted _ _ Hsorted).
  destruct (py_getitem_in_range l selected_idx Hrange) as (i & Hi & _).
  rewrite Hi.
  destruct (run_with_hostname i use_private_ip
              (log (prompted s instance_tags l rs)
                 [Echo false (pretty selected_idx +:+ " is selected.")]))
    as (h & evs & -> & _).
  exists i, h. eexists. split; [done|]. split; [done|].
  pose proof (candidate_listed l (Z.to_nat selected_idx) i Hi) as Hlisted.
  replace (Z.of_nat (Z.to_nat selected_idx)) with selected_idx in Hlisted by lia.
  simpl. rewrite !elem_of_app, !elem_of_cons, elem_of_app. tauto.
Qed.

Lemma listed_index_selects_when_sorted_witness :
  exists i hostname s',
    [ex_a; ex_b] !! 1%nat = Some i
    /\ create_ssh_command_target
         {| ec2_Instance := ec2_Instance ex_session;
            ec2_instances_filter := fun _ => inr [ex_a; ex_b] |}
         None (Some [("role", "web")]) false (ex_state [Some 1])
       = (inr (Some (i, hostname)), s')
    /\ Echo false (candidate_text 1 i) ∈ trace s'.
Proof.
  apply (listed_index_selects_when_sorted
           {| ec2_Instance := ec2_Instance ex_session;
              ec2_instances_filter := fun _ => inr [ex_a; ex_b] |}
           false (ex_state [Some 1]) [("role", "web")] [ex_a; ex_b] (Some 1) []).
  - reflexivity.
  - simpl. lia.
  - repeat constructor.
  - reflexivity.
  - simpl. lia.
Defined.

(** ** A name is a Name tag *)

Lemma count_char_app (c : ascii) (a b : string) :
  count_char c (a +:+ b) = (count_char c a + count_char c b)%nat.
Proof.
  induction a as [|x a IH]; [done|].
  change (String x a +:+ b) with (String x (a +:+ b)). simpl. rewrite IH. lia.
Qed.

Lemma split_none (sep : ascii) (s : string) : count_char sep s = 0%nat -> split sep s = [s].
Proof.
  induction s as [|c s IH]; simpl; [done|].
  destruct (Ascii.eqb c sep); [done|]. intros Hs. by rewrite IH.
Qed.

Lemma split_first (sep : ascii) (a b : string) :
  count_char sep a = 0%nat -> split sep (a +:+ String sep b) = a :: split sep b.
Proof.
  induction a as [|c a IH].
  - intros _. change ("" +:+ String sep b) with (String sep b). simpl.
    by rewrite Ascii.eqb_refl.
  - change (String c a +:+ String sep b) with (String c (a +:+ String sep b)). simpl.
    destruct (Ascii.eqb c sep); [done|]. intros Ha. by rewrite IH.
Qed.

Lemma rstrip_cons (c : ascii) (s : string) :
  is_space c = false -> rstrip s = s -> rstrip (String c s) = String c s.
Proof. intros Hc Hs. simpl. rewrite Hs, Hc. by destruct s. Qed.

Lemma parse_Name_tag (name : string) :
  count_char ","%char name = 0%nat ->
  count_char ":"%char name = 0%nat ->
  rstrip name = name ->
  _parse_tags ("Name:" +:+ name) = inr [("Name", name)].
Proof.
  intros Hcomma Hcolon Hstrip. unfold _parse_tags.
  rewrite split_none by (by rewrite count_char_app, Hcomma).
  assert (Hs : strip ("Name:" +:+ name) = "Name" +:+ String ":"%char name).
  { unfold strip.
    change ("Name:" +:+ name)
      with (String "N" (String "a" (String "m" (String "e" (String ":" name))))).
    assert (Hr : rstrip (String "N" (String "a" (String "m" (String "e" (String ":" name)))))
                 = String "N" (String "a" (String "m" (String "e" (String ":" name)))))
      by (repeat (apply rstrip_cons; [reflexivity|]); exact Hstrip).
    rewrite Hr. reflexivity. }
  simpl. rewrite Hs, split_first by done. by rewrite split_none.
Qed.

(** X17. Selecting by name is selecting by the tag Name: for a name without
    comma, colon or trailing white space, [ssh] with --instance-name NAME and
    [ssh] with --instance-tags Name:NAME do the same. *)
Theorem instance_name_is_Name_tag (session : session) (shell : string -> Z)
    (name : string) (username key_file : option string)
    (port : Z) (ssh_options : option string) (private_ip : bool)
    (gateway_instance_id gateway_username : option string) (dry_run : bool) (s : state) :
  count_char ","%char name = 0%nat ->
  count_char ":"%char name = 0%nat ->
  rstrip name = name ->
  ssh session shell None None (Some ("Name:" +:+ name)) username key_file port ssh_options
    private_ip gateway_instance_id gateway_username dry_run s
  = ssh session shell None (Some name) None username key_file port ssh_options
      private_ip gateway_instance_id gateway_username dry_run s.
Proof.
  intros Hcomma Hcolon Hstrip. rewrite !ssh_run by done.
  simpl. by rewrite parse_Name_tag.
Qed.

Lemma instance_name_is_Name_tag_witness :
  ssh ex_session ex_shell None None (Some "Name:db") None None 22 None false None None true
    (ex_state [])
  = ssh ex_session ex_shell None (Some "db") None None None 22 None false None None true
      (ex_state []).
Proof.
  apply (instance_name_is_Name_tag ex_session ex_shell "db"); reflexivity.
Defined.

(** ** The [ls] command *)

Lemma run_get_max_name_len_collection (ec2 : session) (conditions : list condition)
    (l : list Instance.t) (s : state) :
  ec2_instances_filter ec2 conditions = inr l ->
  _get_max_name_len_collection ec2 conditions s
  = (inr (_get_max_name_len l),
     log s match l with
           | [] => [Query conditions]
           | _ :: _ => [Query conditions; Query conditions]
           end).
Proof.
  intros Hq. unfold _get_max_name_len_collection.
  rewrite run_bind, run_iterate, Hq. destruct l as [|i l]; [done|].
  rewrite run_bind, run_iterate, Hq. by rewrite log_log.
Qed.

Lemma run_format_output_collection (ec2 : session) (conditions : list condition)
    (flag : bool) (l : list Instance.t) (s : state) :
  ec2_instances_filter ec2 conditions = inr l ->
  format_output_collection ec2 conditions flag s
  = (format_output l flag, log s (ls_queries conditions l)).
Proof.
  intros Hq. unfold format_output_collection.
  rewrite run_bind, (run_get_max_name_len_collection _ _ _ _ Hq).
  rewrite run_bind, run_iterate, Hq, log_log. unfold lift, format_output.
  by destruct l.
Qed.

(** X18. [ls] on the collection agrees with [format_output] on the list of
    its instances: for what the provider returns, it prints the lines joined
    by newlines in one write to standard output and returns, after two
    queries when nothing matches (the output is then the empty line) and three
    otherwise, without prompting. The default name applies no filter at all,
    any other name filters on the Name tag only, in every state. *)
Theorem ls_prints_the_listing (session : session) (name : string) (list_formatted : bool)
    (l : list Instance.t) (s : state) :
  ec2_instances_filter session (ls_conditions name) = inr l ->
  ls session name list_formatted s
  = match format_output l list_formatted with
    | inr out =>
        (inr tt,
         log s (ls_queries (ls_conditions name) l ++ [Echo false (String.concat NL out)]))
    | inl e => (inl e, log s (ls_queries (ls_conditions name) l))
    end
  /\ (l = [] ->
      ls session name list_formatted s
      = (inr tt, log s [Query (ls_conditions name); Query (ls_conditions name);
                        Echo false ""]))
  /\ ls_conditions "*" = []
  /\ (name <> "*" -> ls_conditions name = [ {| Name := "tag:Name"; Values := [name] |} ]).
Proof.
  intros Hq.
  assert (Hrun : ls session name list_formatted s
                 = match format_output l list_formatted with
                   | inr out =>
                       (inr tt,
                        log s (ls_queries (ls_conditions name) l
                               ++ [Echo false (String.concat NL out)]))
                   | inl e => (inl e, log s (ls_queries (ls_conditions name) l))
                   end).
  { unfold ls. rewrite run_bind, (run_format_output_collection _ _ _ _ _ Hq).
    destruct (format_output l list_formatted) as [e|out]; [done|].
    by rewrite run_click_echo, log_log. }
  split; [done|]. split; [|split; [done|]].
  - intros ->. rewrite Hrun. by destruct list_formatted.
  - intros Hname. unfold ls_conditions. by destruct (String.eqb_spec name "*").
Qed.

Lemma ls_prints_the_listing_witness :
  ls ex_pair "*" true (ex_state [])
  = (inr tt,
     {| responses := [];
        trace := [Query []; Query []; Query [];
                  Echo false
                    ("gw   running         i-gw                 10.0.0.1        3.3.3.3         "
                     +:+ NL +:+
                     "a    running         i-a                  10.0.0.6        1.1.1.1         ")
                 ] |}).
Proof.
  apply (ls_prints_the_listing ex_pair "*" true [ex_gateway; ex_a] (ex_state [])).
  reflexivity.
Defined.



(** ** Reading the tab-separated listing back *)

Lemma format_output_plain_lines (instances : list Instance.t) :
  format_output instances false = inr (map plain_line instances).
Proof.
  unfold format_output. apply mapM_inr, Forall_forall. intros i _.
  unfold plain_line. simpl. by rewrite app_empty_r.
Qed.

Lemma split_plain_line (i : Instance.t) :
  tab_free i ->
  split (ascii_of_nat 9) (plain_line i)
  = [get_tag_value (Instance.tags i) "Name"; Instance.state_Name i; Instance.id i;
     py_str (Instance.private_ip_address i); py_str (Instance.public_ip_address i)].
Proof.
  intros (Hname & Hstate & Hid & Hprivate & Hpublic). unfold plain_line.
  repeat match goal with
         | |- context [TAB +:+ ?rest] =>
             change (TAB +:+ rest) with (String (ascii_of_nat 9) rest)
         end.
  rewrite !split_first by done. by rewrite split_none.
Qed.

(** X20. The tab-separated listing can be read back: it has one line per
    instance, in the provider's order, and splitting a line at the tabs gives
    the Name tag, state, id, private address and public address, as long as
    none of them contains a tab. *)
Theorem plain_listing_splits_into_fields (instances : list Instance.t) :
  Forall tab_free instances ->
  exists out,
    format_output instances false = inr out
    /\ Forall2 (fun i line =>
                  split (ascii_of_nat 9) line
                  = [get_tag_value (Instance.tags i) "Name"; Instance.state_Name i;
                     Instance.id i; py_str (Instance.private_ip_address i);
                     py_str (Instance.public_ip_address i)])
               instances out.
Proof.
  intros Hfree. exists (map plain_line instances).
  split; [apply format_output_plain_lines|].
  apply Forall2_fmap_r, Forall_Forall2_diag.
  eapply Forall_impl; [exact Hfree|]. intros i Hi. by apply split_plain_line.
Qed.

Lemma plain_listing_splits_into_fields_witness :
  exists out,
    format_output [ex_terminated] false = inr out
    /\ Forall2 (fun i line =>
                  split (ascii_of_nat 9) line
                  = [get_tag_value (Instance.tags i) "Name"; Instance.state_Name i;
                     Instance.id i; py_str (Instance.private_ip_address i);
                     py_str (Instance.public_ip_address i)])
               [ex_terminated] out.
Proof.
  apply (plain_listing_splits_into_fields [ex_terminated]).
  repeat constructor.
Defined.

(** ** From the command line to the command *)

(** X21. End to end for the common case: tags that parse, exactly one running
    instance that matches and has a public address, no gateway and --dry-run.
    [ssh] queries once, asks nothing, prints the direct command for the public
    address and returns. With --private-ip the command is for the private
    address instead. *)
Theorem ssh_single_match_dry_run (session : session) (shell : string -> Z)
    (tags : string) (username key_file : option string)
    (port : Z) (ssh_options : option string) (private_ip : bool)
    (gateway_username : option string) (s : state)
    (d : dict) (i : Instance.t) (public : string) :
  _parse_tags tags = inr d ->
  ec2_instances_filter session (tag_conditions d) = inr [i] ->
  Instance.public_ip_address i = Some public ->
  ssh session shell None None (Some tags) username key_file port ssh_options private_ip
    None gateway_username true s
  = (inr tt,
     log s [Query (tag_conditions d);
            Echo false
              ("ssh" +:+ build_option_username username +:+ " "
               +:+ (if private_ip then py_str (Instance.private_ip_address i) else public)
               +:+ key_file_text key_file +:+ " -p " +:+ pretty port
               +:+ ssh_options_text ssh_options)]).
Proof.
  intros Hparse Hq Hpublic. rewrite ssh_run by done. simpl. rewrite Hparse.
  unfold create_ssh_command.
  rewrite run_bind, (target_by_tags_one _ _ _ _ _ Hq).
  unfold with_hostname, _get_instance_ip_address. rewrite Hpublic.
  destruct private_ip; rewrite run_bind, run_ret, run_ret, cmd_direct, log_log; done.
Qed.

Lemma ssh_single_match_dry_run_witness :
  ssh ex_single ex_shell None None (Some "Name:gw") (Some "bob") (Some "k.pem") 2222
    (Some "-v") false None None true (ex_state [])
  = (inr tt,
     {| responses := [];
        trace := [Query (tag_conditions [("Name", "gw")]);
                  Echo false "ssh -l bob 3.3.3.3 -i k.pem -p 2222 -v"] |}).
Proof.
  apply (ssh_single_match_dry_run ex_single ex_shell "Name:gw" (Some "bob") (Some "k.pem") 2222 (Some "-v") false None
           (ex_state []) [("Name", "gw")] ex_gateway "3.3.3.3"); reflexivity.
Defined.
